(** * Adaptor: fusion of text and image embeddings (src/adaptor.py)

    A shallow embedding of [Project], [AdaptorModule] and [Adaptor]:
    tensors are nested lists over a scalar type, Python exceptions are
    an error type, and calls to [nn.Module]s that live outside the
    file (the text and vision encoders, [BertEncoder], [BertPooler],
    the [nn.Linear] constructor) are callables that thread the state
    of the numeric runtime and leave an entry in a call log. *)

From Stdlib Require Import String List ZArith Bool Lia PeanoNat.
From Stdlib Require Import Floats.SpecFloat.
Import ListNotations.
Local Open Scope string_scope.
Local Open Scope list_scope.

Set Implicit Arguments.

(** ** Exceptions and outcomes *)

(** The Python exceptions the code can end in.  The last four are the
    error taxonomy of the specification (section 7); no statement of
    src/adaptor.py raises them, they are here so that a claim naming
    them can be stated. *)
Inductive exn : Type :=
| AssertionError (msg : string)
| UnboundLocalError (name : string)
| RuntimeError (msg : string)
| TypeError (msg : string)
| AttributeError (attr : string)
| KeyError (key : string)
| IndexError (msg : string)
| ValueError (msg : string)
| Exception (msg : string)
| ShapeMismatch
| BatchSizeMismatch
| UnsupportedBackbone
| ConfigurationError.

Inductive outcome (A : Type) : Type :=
| Ok (a : A)
| Raise (e : exn).
Arguments Ok {A} a.
Arguments Raise {A} e.

Definition obind {A B : Type} (c : outcome A) (k : A -> outcome B) : outcome B :=
  match c with
  | Ok a => k a
  | Raise e => Raise e
  end.

Notation "'let*' x ':=' c 'in' k" := (obind c (fun x => k))
  (at level 10, x pattern, c at level 100, k at level 200).

Definition is_ok {A : Type} (c : outcome A) : bool :=
  match c with Ok _ => true | Raise _ => false end.

(** ** Scalars

    The element type of a float tensor with the kernels the code
    applies to it.  [fexp] is [torch.exp]. *)
Class Scalar (F : Type) : Type := {
  fzero : F;
  fone : F;
  ftwo : F;
  fadd : F -> F -> F;
  fmul : F -> F -> F;
  fdiv : F -> F -> F;
  fsqrt : F -> F;
  fexp : F -> F
}.

(** IEEE 754 binary32, the default dtype of torch: 24 bits of
    precision, exponent of the infinities 128. *)
Module Binary32.
Definition prec : Z := 24.
Definition emax : Z := 128.
Definition float32 : Type := spec_float.
Definition zero : float32 := S754_zero false.
Definition one : float32 := S754_finite false 8388608 (-23).
Definition two : float32 := S754_finite false 8388608 (-22).
Definition nan : float32 := S754_nan.
Definition add : float32 -> float32 -> float32 := SFadd prec emax.
Definition mul : float32 -> float32 -> float32 := SFmul prec emax.
Definition div : float32 -> float32 -> float32 := SFdiv prec emax.
Definition sqrt : float32 -> float32 := SFsqrt prec emax.
(** Stand-in for [torch.exp], which the Standard Library does not
    have: the polynomial 1 + x + x*x/2.  It only serves to run
    examples; every theorem is stated for an arbitrary [fexp]. *)
Definition exp_poly (x : float32) : float32 :=
  add (add one x) (div (mul x x) two).
#[global] Instance scalar : Scalar float32 := {|
  fzero := zero; fone := one; ftwo := two;
  fadd := add; fmul := mul; fdiv := div;
  fsqrt := sqrt; fexp := exp_poly
|}.
End Binary32.

(** ** Tensors

    A float tensor of rank n is an n-fold nested list, outermost
    dimension first.  torch tensors are rectangular; [wf2] and [wf3]
    say so for a nested list.  The sizes of a tensor are read off its
    first elements, so an axis of size 0 hides the sizes of the axes
    inside it; sums run from the left, where torch leaves the order
    of a reduction to the kernel. *)
Section Tensors.
Context {F : Type} {SF : Scalar F}.

Definition vec : Type := list F.
Definition tensor2 : Type := list vec.
Definition tensor3 : Type := list tensor2.
Definition tensor4 : Type := list tensor3.

Definition wf2 (r c : nat) (m : tensor2) : Prop :=
  length m = r /\ Forall (fun v => length v = c) m.
Definition wf3 (b l h : nat) (t : tensor3) : Prop :=
  length t = b /\ Forall (wf2 l h) t.

(** [t.shape[0]], [t.shape[1]], [t.shape[2]] *)
Definition size0 {A : Type} (t : list A) : nat := length t.
Definition size1 {A : Type} (t : list (list A)) : nat := length (hd [] t).
Definition size2 {A : Type} (t : list (list (list A))) : nat :=
  length (hd [] (hd [] t)).

Definition full2 (r c : nat) (x : F) : tensor2 := repeat (repeat x c) r.
Definition full3 (b l h : nat) (x : F) : tensor3 := repeat (full2 l h x) b.
(** [torch.ones((r, c))] *)
Definition ones2 (r c : nat) : tensor2 := full2 r c fone.

(** [torch.cat([t, i], dim=1)] on rank-3 tensors: every dimension
    but the second has to agree. *)
Definition cat_dim1 (t i : tensor3) : outcome tensor3 :=
  if (size0 t =? size0 i)%nat && (size2 t =? size2 i)%nat
  then Ok (map (fun p => fst p ++ snd p) (combine t i))
  else Raise (RuntimeError "Sizes of tensors must match except in dimension 1").

(** [x[:, :n, :]] and [x[:, n:, :]] *)
Definition slice_to (n : nat) (x : tensor3) : tensor3 := map (firstn n) x.
Definition slice_from (n : nat) (x : tensor3) : tensor3 := map (skipn n) x.

(** [x[:, 0, :]] *)
Fixpoint select0 (x : tensor3) : outcome tensor2 :=
  match x with
  | [] => Ok []
  | [] :: _ => Raise (IndexError "index 0 is out of bounds for dimension 1 with size 0")
  | (v :: _) :: rest => let* r := select0 rest in Ok (v :: r)
  end.

(** [m.t()] and [m.T] on a rank-2 tensor *)
Definition transpose (m : tensor2) : tensor2 :=
  map (fun j => map (fun row => nth j row fzero) m) (seq 0 (size1 m)).

Definition dot (u v : vec) : F :=
  fold_left fadd (map (fun p => fmul (fst p) (snd p)) (combine u v)) fzero.

(** [torch.matmul(a, b)] on rank-2 tensors *)
Definition matmul (a b : tensor2) : outcome tensor2 :=
  if (size1 a =? size0 b)%nat
  then Ok (map (fun row => map (dot row) (transpose b)) a)
  else Raise (RuntimeError "mat1 and mat2 shapes cannot be multiplied").

(** [m * s] for a rank-0 tensor [s] *)
Definition mul_scalar (m : tensor2) (s : F) : tensor2 :=
  map (map (fun x => fmul x s)) m.

(** [x.norm(dim=-1, keepdim=True)]: the 2-norm of every vector of
    the last axis, kept as an axis of size 1. *)
Definition l2norm (v : vec) : F :=
  fsqrt (fold_left fadd (map (fun x => fmul x x) v) fzero).
Definition norm_keepdim (x : tensor3) : tensor3 :=
  map (map (fun v => [l2norm v])) x.

(** [x / d] where the last axis of [d] has size 1 and broadcasts *)
Definition tdiv (x d : tensor3) : tensor3 :=
  map (fun p =>
         map (fun q => map (fun a => fdiv a (hd fzero (snd q))) (fst q))
             (combine (fst p) (snd p)))
      (combine x d).

(** [torch.flatten(z, start_dim=2)] on a rank-4 tensor *)
Definition flatten_from2 (z : tensor4) : tensor3 := map (map (@concat F)) z.
(** [x.permute((0, 2, 1))] *)
Definition permute_021 (x : tensor3) : tensor3 := map transpose x.
End Tensors.

(** ** Effects

    A forward call runs [nn.Module]s that are not defined in this
    repository.  Such a module may read and change state outside its
    arguments (the random generator behind dropout and weight
    initialisation, its own buffers): [W] is that state, a [callable]
    maps an argument and a state to an outcome and a state.  The
    [world] also keeps the log of what was printed and which external
    modules were run, in order. *)
Section Model.
Variable W : Type.
Context {F : Type} {SF : Scalar F}.

Inductive event : Type :=
| EvPrint (line : string)
| EvVisionModel
| EvTextModel
| EvEncoder
| EvPooler
| EvNewLinear (in_features : option nat) (out_features : nat)
| EvNewEncoder
| EvNewPooler.

Record world : Type := World { log : list event; ext : W }.

Definition M (A : Type) : Type := world -> outcome A * world.

Definition ret {A : Type} (a : A) : M A := fun w => (Ok a, w).
Definition raise {A : Type} (e : exn) : M A := fun w => (Raise e, w).
Definition bind {A B : Type} (c : M A) (k : A -> M B) : M B :=
  fun w => match c w with
           | (Ok a, w') => k a w'
           | (Raise e, w') => (Raise e, w')
           end.
Definition lift {A : Type} (c : outcome A) : M A := fun w => (c, w).

Definition callable (X Y : Type) : Type := X -> W -> outcome Y * W.

Definition invoke {X Y : Type} (ev : event) (f : callable X Y) (x : X) : M Y :=
  fun w => let (r, s) := f x (ext w) in
           (r, {| log := log w ++ [ev]; ext := s |}).

(** A callable whose outcome is a function of its argument alone:
    it does not depend on the state it is run in. *)
Definition deterministic {X Y : Type} (f : callable X Y) : Prop :=
  forall (x : X) (s s' : W), fst (f x s) = fst (f x s').

(** A computation whose outcome does not depend on the world it is
    run in. *)
Definition world_independent {A : Type} (c : M A) : Prop :=
  forall w w' : world, fst (c w) = fst (c w').

(** [print(line)] *)
Definition print (line : string) : M unit :=
  fun w => (Ok tt, {| log := log w ++ [EvPrint line]; ext := ext w |}).

(** [assert cond, msg] *)
Definition py_assert (cond : bool) (msg : string) : M unit :=
  if cond then ret tt else raise (AssertionError msg).

Notation "x <- c ;; k" := (bind c (fun x => k))
  (at level 61, c at next level, right associativity).

(** ** Objects an external module returns

    A transformers [ModelOutput] with a [last_hidden_state], a bare
    tensor, or a dict whose entry under ['z'] (if any) is a rank-4
    tensor. *)
Inductive pyobj : Type :=
| ModelOutput (last_hidden_state : tensor3 (F:=F))
| TensorObj (t : tensor3 (F:=F))
| DictObj (z : option (tensor4 (F:=F))).

(** [o.last_hidden_state] *)
Definition getattr_last_hidden_state (o : pyobj) : outcome tensor3 :=
  match o with
  | ModelOutput t => Ok t
  | _ => Raise (AttributeError "last_hidden_state")
  end.

(** [o['z']] *)
Definition getitem_z (o : pyobj) : outcome tensor4 :=
  match o with
  | DictObj (Some z) => Ok z
  | DictObj None => Raise (KeyError "z")
  | ModelOutput _ => Raise (KeyError "z")
  | TensorObj _ => Raise (IndexError "only integers, slices, ellipsis, None and tensors are valid indices")
  end.

(** Reading a local variable that may not have been assigned. *)
Definition read_local {A : Type} (name : string) (v : option A) : outcome A :=
  match v with
  | Some a => Ok a
  | None => Raise (UnboundLocalError name)
  end.

(** Truth value of an [Optional[bool]]: [None] is false. *)
Definition truthy (b : option bool) : bool :=
  match b with Some true => true | _ => false end.

(** ** nn.Linear (bias=False) *)
Record Linear : Type := {
  in_features : nat;
  out_features : nat;
  weight : tensor2 (F:=F)   (* out_features rows of in_features entries *)
}.

(** [l(x)]: x @ weight^T along the last axis; torch refuses an
    input that is not a tensor or whose last axis is not
    [in_features] wide. *)
Definition Linear_forward (l : Linear) (x : pyobj) : outcome tensor3 :=
  match x with
  | TensorObj t =>
      if (size2 t =? in_features l)%nat
      then Ok (map (map (fun v => map (dot v) (weight l))) t)
      else Raise (RuntimeError "mat1 and mat2 shapes cannot be multiplied")
  | _ => Raise (TypeError "linear(): argument 'input' must be Tensor")
  end.

(** The projected and normalised sequence of one modality, vector by
    vector: the image of each vector under the head, divided by its
    2-norm. *)
Definition project_normalize (l : Linear) (x : tensor3 (F:=F)) : tensor3 :=
  map (map (fun v => let p := map (dot v) (weight l) in
                     map (fun a => fdiv a (l2norm p)) p)) x.

(** ** class Project *)
Record Project : Type := {
  text_embed_dim : nat;
  vision_embed_dim : option nat;
  projection_dim : nat;
  visual_projection : Linear;
  text_projection : Linear
}.

(** Project.forward (lines 134-146) *)
Definition Project_forward (self : Project) (text_embeds_ image_embeds_ : pyobj)
  : outcome (tensor3 * tensor3) :=
  let* text_embeds := Linear_forward (text_projection self) text_embeds_ in
  let* image_embeds := Linear_forward (visual_projection self) image_embeds_ in
  (* normalized features *)
  let text_embeds := tdiv text_embeds (norm_keepdim text_embeds) in
  let image_embeds := tdiv image_embeds (norm_keepdim image_embeds) in
  Ok (image_embeds, text_embeds).

(** ** What the file takes from transformers

    [BertConfig] with the fields the code reads, the two mask
    utilities and [get_head_mask] of [ModuleUtilsMixin], whose
    results are opaque here and go to the encoder unchanged. *)
Record BertConfig : Type := {
  num_hidden_layers : nat;
  is_decoder : bool;
  output_attentions : bool;
  output_hidden_states : bool;
  use_return_dict : bool
}.

(** [BertConfig(num_hidden_layers=n)] with the defaults of transformers *)
Definition BertConfig_new (n : nat) : BertConfig :=
  {| num_hidden_layers := n; is_decoder := false; output_attentions := false;
     output_hidden_states := false; use_return_dict := true |}.

Variable HeadMaskArg : Type.   (* the compact head mask a caller passes *)
Variable HeadMask : Type.      (* its per-layer expansion *)
Variable ExtMask : Type.       (* an additive, broadcastable attention mask *)
Variable EncExtras : Type.     (* encoder outputs after the first *)

Variable get_extended_attention_mask : tensor2 (F:=F) -> nat * nat -> outcome ExtMask.
Variable invert_attention_mask : tensor2 (F:=F) -> outcome ExtMask.
Variable get_head_mask : option HeadMaskArg -> nat -> outcome HeadMask.

(** [past_key_values], a tuple of tuples of rank-4 tensors *)
Definition PastKeyValues : Type := list (list (tensor4 (F:=F))).

(** [past_key_values[0][0].shape[2]] *)
Definition past_length (p : PastKeyValues) : outcome nat :=
  match p with
  | (k :: _) :: _ => Ok (size2 k)
  | _ => Raise (IndexError "tuple index out of range")
  end.

(** The arguments [AdaptorModule.forward] passes to [BertEncoder]. *)
Record encoder_args : Type := {
  ea_hidden_states : tensor3 (F:=F);
  ea_attention_mask : ExtMask;
  ea_head_mask : HeadMask;
  ea_encoder_hidden_states : option (tensor3 (F:=F));
  ea_encoder_attention_mask : option ExtMask;
  ea_past_key_values : option PastKeyValues;
  ea_use_cache : bool;
  ea_output_attentions : bool;
  ea_output_hidden_states : bool;
  ea_return_dict : bool
}.

(** What the encoder returns: [encoder_outputs[0]] and the rest. *)
Record encoder_outputs : Type := {
  eo_first : tensor3 (F:=F);
  eo_rest : EncExtras
}.

(** ** class AdaptorModule *)
Record AdaptorModule : Type := {
  config : BertConfig;
  encoder : callable encoder_args encoder_outputs;
  pooler : callable (tensor3 (F:=F)) (tensor2 (F:=F))
}.

(** An encoder that returns, when it returns, a sequence of the shape
    of the one it was given: what transformers documents of
    [BertEncoder]. *)
Definition shape_preserving (f : callable encoder_args encoder_outputs) : Prop :=
  forall a s o s', f a s = (Ok o, s') ->
  forall b l h, wf3 b l h (ea_hidden_states a) -> wf3 b l h (eo_first o).

(** [self.embeddings = lambda t, i: torch.cat([t, i], dim=1)] *)
Definition embeddings (t i : tensor3 (F:=F)) : outcome tensor3 := cat_dim1 t i.

(** Keyword arguments of AdaptorModule.forward. *)
Record am_kwargs : Type := {
  kw_attention_mask : option (tensor2 (F:=F));
  kw_head_mask : option HeadMaskArg;
  kw_encoder_hidden_states : option (tensor3 (F:=F));
  kw_encoder_attention_mask : option (tensor2 (F:=F));
  kw_past_key_values : option PastKeyValues;
  kw_use_cache : option bool;
  kw_output_attentions : option bool;
  kw_output_hidden_states : option bool;
  kw_return_dict : option bool
}.

(** The defaults of the signature (lines 34-42). *)
Definition am_defaults : am_kwargs :=
  {| kw_attention_mask := None; kw_head_mask := None;
     kw_encoder_hidden_states := None; kw_encoder_attention_mask := None;
     kw_past_key_values := None; kw_use_cache := None;
     kw_output_attentions := Some false; kw_output_hidden_states := Some false;
     kw_return_dict := Some true |}.

(** The tuple of line 109 or the
    [BaseModelOutputWithPoolingAndCrossAttentions] of line 111. *)
Inductive am_result : Type :=
| AMTuple (sequence_output : tensor3 (F:=F)) (pooled_output : tensor2 (F:=F))
          (rest : EncExtras)
| AMOutput (last_hidden_state : tensor3 (F:=F)) (pooler_output : tensor2 (F:=F))
           (extras : EncExtras).

(** [outputs.last_hidden_state] *)
Definition am_last_hidden_state (r : am_result) : outcome tensor3 :=
  match r with
  | AMOutput s _ _ => Ok s
  | AMTuple _ _ _ => Raise (AttributeError "last_hidden_state")
  end.

(** [outputs[0]]: the sequence output, whichever form [outputs] has *)
Definition am_first (r : am_result) : tensor3 :=
  match r with
  | AMOutput s _ _ => s
  | AMTuple s _ _ => s
  end.

(** the keyword arguments [kw] with [attention_mask=m] *)
Definition with_attention_mask (kw : am_kwargs) (m : option (tensor2 (F:=F))) : am_kwargs :=
  {| kw_attention_mask := m;
     kw_head_mask := kw_head_mask kw;
     kw_encoder_hidden_states := kw_encoder_hidden_states kw;
     kw_encoder_attention_mask := kw_encoder_attention_mask kw;
     kw_past_key_values := kw_past_key_values kw;
     kw_use_cache := kw_use_cache kw;
     kw_output_attentions := kw_output_attentions kw;
     kw_output_hidden_states := kw_output_hidden_states kw;
     kw_return_dict := kw_return_dict kw |}.

Definition or_default (o : option bool) (d : bool) : bool :=
  match o with Some b => b | None => d end.

(** AdaptorModule.forward (lines 30-118) *)
Definition AdaptorModule_forward (self : AdaptorModule)
    (text_embeds image_embeds : tensor3 (F:=F)) (kw : am_kwargs) : M am_result :=
  inputs_embeds <- lift (embeddings text_embeds image_embeds) ;;
  let output_attentions :=
    or_default (kw_output_attentions kw) (output_attentions (config self)) in
  let output_hidden_states :=
    or_default (kw_output_hidden_states kw) (output_hidden_states (config self)) in
  let return_dict := or_default (kw_return_dict kw) (use_return_dict (config self)) in
  let use_cache := false in
  let input_shape := (size0 inputs_embeds, size1 inputs_embeds) in
  let batch_size := fst input_shape in
  let seq_length := snd input_shape in
  past_key_values_length <-
    lift (match kw_past_key_values kw with
          | Some p => past_length p
          | None => Ok 0
          end) ;;
  let attention_mask :=
    match kw_attention_mask kw with
    | None => ones2 batch_size (seq_length + past_key_values_length)
    | Some m => m
    end in
  extended_attention_mask <-
    lift (get_extended_attention_mask attention_mask input_shape) ;;
  encoder_extended_attention_mask <-
    lift (match kw_encoder_hidden_states kw with
          | Some ehs =>
              if is_decoder (config self) then
                let encoder_hidden_shape := (size0 ehs, size1 ehs) in
                let encoder_attention_mask :=
                  match kw_encoder_attention_mask kw with
                  | None => ones2 (fst encoder_hidden_shape) (snd encoder_hidden_shape)
                  | Some m => m
                  end in
                let* m := invert_attention_mask encoder_attention_mask in Ok (Some m)
              else Ok None
          | None => Ok None
          end) ;;
  head_mask <- lift (get_head_mask (kw_head_mask kw) (num_hidden_layers (config self))) ;;
  encoder_outputs <-
    invoke EvEncoder (encoder self)
      {| ea_hidden_states := inputs_embeds;
         ea_attention_mask := extended_attention_mask;
         ea_head_mask := head_mask;
         ea_encoder_hidden_states := kw_encoder_hidden_states kw;
         ea_encoder_attention_mask := encoder_extended_attention_mask;
         ea_past_key_values := kw_past_key_values kw;
         ea_use_cache := use_cache;
         ea_output_attentions := output_attentions;
         ea_output_hidden_states := output_hidden_states;
         ea_return_dict := return_dict |} ;;
  let sequence_output := eo_first encoder_outputs in
  pooled_output <- invoke EvPooler (pooler self) sequence_output ;;
  if negb return_dict
  then ret (AMTuple sequence_output pooled_output (eo_rest encoder_outputs))
  else ret (AMOutput sequence_output pooled_output (eo_rest encoder_outputs)).

(** ** The contrastive loss

    [torch.nn.functional.cross_entropy(logits, target)] with class
    indices as target is a kernel of torch. *)
Variable cross_entropy : tensor2 (F:=F) -> list nat -> F.

(** Modelled from the spec: the cross-entropy of a logits matrix
    against the identity permutation (the diagonal holds the positive
    pairs), the helper of [clip_loss] in transformers, not under
    src/. *)
Definition contrastive_loss (logits : tensor2 (F:=F)) : F :=
  cross_entropy logits (seq 0 (length logits)).

(** Modelled from the spec: [clip_loss] is imported from
    transformers.models.clip.modeling_clip (line 15) and its body is
    not under src/.  Section 4.3 step 9: the cross-entropy of the
    text logits against the identity permutation and the
    cross-entropy of the image logits (their transpose) against the
    same target, added and halved. *)
Definition clip_loss (similarity : tensor2 (F:=F)) : F :=
  let caption_loss := contrastive_loss similarity in
  let image_loss := contrastive_loss (transpose similarity) in
  fdiv (fadd caption_loss image_loss) ftwo.

(** ** class Adaptor *)
Variable LongTensor : Type.    (* input_ids, position_ids, token_type_ids *)
Variable MaskTensor : Type.    (* the attention mask of the text encoder *)
Variable PixelValues : Type.

(** The keyword arguments the text encoder is called with (lines 210-218). *)
Record text_args : Type := {
  ta_input_ids : option LongTensor;
  ta_attention_mask : option MaskTensor;
  ta_token_type_ids : option LongTensor;
  ta_position_ids : option LongTensor;
  ta_output_attentions : option bool;
  ta_output_hidden_states : option bool;
  ta_return_dict : option bool
}.

(** The vision encoder is called with [pixel_values] alone (lines
    203, 205) or with the three output flags as well (lines 195-200). *)
Record vision_args : Type := {
  va_pixel_values : option PixelValues;
  va_flags : option (option bool * option bool * option bool)
}.

(** The text encoder: [text_model.config.hidden_size] and the module. *)
Record TextModel : Type := {
  tm_hidden_size : nat;
  tm_forward : callable text_args pyobj
}.

Record Adaptor : Type := {
  vision_model : callable vision_args pyobj;
  text_model : TextModel;
  projection : Project;
  adaptor_module : AdaptorModule;
  vision_model_type : string;
  vision_output_dim : option nat;
  adaptor_projection_dim : nat;
  logit_scale_init_value : F;
  logit_scale : F
}.

(** Arguments of Adaptor.forward (lines 182-190). *)
Record forward_args : Type := {
  input_ids : option LongTensor;
  pixel_values : option PixelValues;
  attention_mask : option MaskTensor;
  position_ids : option LongTensor;
  return_loss : option bool;
  token_type_ids : option LongTensor;
  fa_output_attentions : option bool;
  fa_output_hidden_states : option bool;
  return_dict : option bool
}.

(** The fields of the result (lines 242, 245-250). *)
Record CLIPOutput : Type := {
  loss : option F;
  logits_per_image : tensor2 (F:=F);
  logits_per_text : tensor2 (F:=F);
  text_embeds : tensor3 (F:=F);
  image_embeds : tensor3 (F:=F)
}.

(** A plain tuple (which leaves the loss out when it is [None]) or a
    [CLIPOutput]. *)
Inductive forward_result : Type :=
| AsTuple (fields : CLIPOutput)
| AsCLIPOutput (fields : CLIPOutput).

Definition fields_of (r : forward_result) : CLIPOutput :=
  match r with AsTuple o => o | AsCLIPOutput o => o end.

(** Lines 194-208: the dispatch on [vision_model_type]; the result
    is the local [image_embeds_raw], unassigned in the last branch. *)
Definition vision_dispatch (self : Adaptor) (a : forward_args) : M (option pyobj) :=
  if String.eqb (vision_model_type self) "huggingface" then
    vision_outputs <-
      invoke EvVisionModel (vision_model self)
        {| va_pixel_values := pixel_values a;
           va_flags := Some (fa_output_attentions a, fa_output_hidden_states a,
                             return_dict a) |} ;;
    image_embeds_raw <- lift (getattr_last_hidden_state vision_outputs) ;;
    ret (Some (TensorObj image_embeds_raw))
  else if String.eqb (vision_model_type self) "timm" then
    image_embeds_raw <-
      invoke EvVisionModel (vision_model self)
        {| va_pixel_values := pixel_values a; va_flags := None |} ;;
    ret (Some image_embeds_raw)
  else if String.eqb (vision_model_type self) "ae" then
    vision_outputs <-
      invoke EvVisionModel (vision_model self)
        {| va_pixel_values := pixel_values a; va_flags := None |} ;;
    z <- lift (getitem_z vision_outputs) ;;
    ret (Some (TensorObj (permute_021 (flatten_from2 z))))
  else
    _ <- print (String.append (vision_model_type self) " is not supported.") ;;
    ret None.

(** Lines 210-219: the text encoder and its [last_hidden_state]. *)
Definition text_encode (self : Adaptor) (a : forward_args) : M tensor3 :=
  text_outputs <-
    invoke EvTextModel (tm_forward (text_model self))
      {| ta_input_ids := input_ids a;
         ta_attention_mask := attention_mask a;
         ta_token_type_ids := token_type_ids a;
         ta_position_ids := position_ids a;
         ta_output_attentions := fa_output_attentions a;
         ta_output_hidden_states := fa_output_hidden_states a;
         ta_return_dict := return_dict a |} ;;
  lift (getattr_last_hidden_state text_outputs).

(** Lines 221-253: projection, fusion, split, renormalisation,
    logits and loss. *)
Definition fuse_and_score (self : Adaptor) (a : forward_args)
    (image_embeds_raw : option pyobj) (text_embeds_raw : tensor3 (F:=F))
  : M forward_result :=
  image_arg <- lift (read_local "image_embeds_raw" image_embeds_raw) ;;
  projected <- lift (Project_forward (projection self) (TensorObj text_embeds_raw) image_arg) ;;
  let image_embeds := fst projected in
  let text_embeds := snd projected in
  outputs <- AdaptorModule_forward (adaptor_module self) text_embeds image_embeds am_defaults ;;
  let text_seq_len := size1 text_embeds in
  fused <- lift (am_last_hidden_state outputs) ;;
  let text_embeds := slice_to text_seq_len fused in
  let image_embeds := slice_from text_seq_len fused in
  (* normalized features *)
  let image_embeds := tdiv image_embeds (norm_keepdim image_embeds) in
  let text_embeds := tdiv text_embeds (norm_keepdim text_embeds) in
  (* cosine similarity as logits *)
  let logit_scale := fexp (logit_scale self) in
  text_summary <- lift (select0 text_embeds) ;;
  image_summary <- lift (select0 image_embeds) ;;
  similarity <- lift (matmul text_summary (transpose image_summary)) ;;
  let logits_per_text := mul_scalar similarity logit_scale in
  let logits_per_image := transpose logits_per_text in
  let loss := if truthy (return_loss a) then Some (clip_loss logits_per_text) else None in
  let fields :=
    {| loss := loss; logits_per_image := logits_per_image;
       logits_per_text := logits_per_text;
       text_embeds := text_embeds; image_embeds := image_embeds |} in
  if negb (truthy (return_dict a)) then ret (AsTuple fields)
  else ret (AsCLIPOutput fields).

(** Adaptor.forward (lines 180-253) *)
Definition Adaptor_forward (self : Adaptor) (a : forward_args) : M forward_result :=
  image_embeds_raw <- vision_dispatch self a ;;
  text_embeds_raw <- text_encode self a ;;
  fuse_and_score self a image_embeds_raw text_embeds_raw.

(** ** Constructors

    [nn.Linear(in_features, out_features, bias)], [BertEncoder(config)]
    and [BertPooler(config)] are constructors of torch and
    transformers: they draw initial weights, so they are callables
    too.  [in_features] is whatever the caller passed, possibly
    [None]. *)
Variable nn_Linear : callable (option nat * nat * bool) Linear.
Variable BertEncoder : callable BertConfig (callable encoder_args encoder_outputs).
Variable BertPooler : callable BertConfig (callable (tensor3 (F:=F)) (tensor2 (F:=F))).

(** Project.__init__ (lines 121-132) *)
Definition Project_init (text_embed_dim : nat) (vision_embed_dim : option nat)
    (projection_dim : nat) : M Project :=
  visual_projection <-
    invoke (EvNewLinear vision_embed_dim projection_dim) nn_Linear
      (vision_embed_dim, projection_dim, false) ;;
  text_projection <-
    invoke (EvNewLinear (Some text_embed_dim) projection_dim) nn_Linear
      (Some text_embed_dim, projection_dim, false) ;;
  ret {| text_embed_dim := text_embed_dim;
         vision_embed_dim := vision_embed_dim;
         projection_dim := projection_dim;
         visual_projection := visual_projection;
         text_projection := text_projection |}.

(** AdaptorModule.__init__ (lines 19-28) *)
Definition AdaptorModule_init (config : option BertConfig) (num_hidden_layers : nat)
  : M AdaptorModule :=
  let config :=
    match config with
    | Some c => c
    | None => BertConfig_new num_hidden_layers
    end in
  encoder <- invoke EvNewEncoder BertEncoder config ;;
  pooler <- invoke EvNewPooler BertPooler config ;;
  ret {| config := config; encoder := encoder; pooler := pooler |}.

(** Adaptor.__init__ (lines 149-178); the defaults of the signature
    are [vision_model_type='huggingface'], [vision_output_dim=None],
    [logit_scale_init_value=2.6592], [projection_dim=512]. *)
Definition Adaptor_init (text_model : TextModel)
    (vision_model : callable vision_args pyobj)
    (adaptor_config : option BertConfig)
    (vision_model_type : string)
    (vision_output_dim : option nat)
    (logit_scale_init_value : F)
    (projection_dim : nat) : M Adaptor :=
  projection <-
    Project_init (tm_hidden_size text_model) vision_output_dim projection_dim ;;
  adaptor_module <- AdaptorModule_init adaptor_config 2 ;;
  let logit_scale := fmul fone logit_scale_init_value in
  _ <- (if negb (String.eqb vision_model_type "transformer")
        then py_assert (match vision_output_dim with Some _ => true | None => false end)
               "Please provide vision_output_dim for non transformer vision models"
        else ret tt) ;;
  ret {| vision_model := vision_model;
         text_model := text_model;
         projection := projection;
         adaptor_module := adaptor_module;
         vision_model_type := vision_model_type;
         vision_output_dim := vision_output_dim;
         adaptor_projection_dim := projection_dim;
         logit_scale_init_value := logit_scale_init_value;
         logit_scale := logit_scale |}.

End Model.

(** ** Arguments and results, field by field

    What the statements about the flags of a call need: a call with
    one argument replaced, a result with one field blanked. *)
Section Views.
Variable W : Type.
Context {F : Type} {SF : Scalar F}.
Variables HeadMask ExtMask EncExtras LongTensor MaskTensor PixelValues : Type.

Definition wf4 (b c h w : nat) (z : tensor4 (F:=F)) : Prop :=
  length z = b /\ Forall (wf3 c h w) z.

(** the arguments [a] with [return_loss=b] *)
Definition with_return_loss (a : forward_args LongTensor MaskTensor PixelValues)
    (b : option bool) : forward_args LongTensor MaskTensor PixelValues :=
  {| input_ids := input_ids a;
     pixel_values := pixel_values a;
     attention_mask := attention_mask a;
     position_ids := position_ids a;
     return_loss := b;
     token_type_ids := token_type_ids a;
     fa_output_attentions := fa_output_attentions a;
     fa_output_hidden_states := fa_output_hidden_states a;
     return_dict := return_dict a |}.

(** a result without its loss *)
Definition without_loss (o : CLIPOutput (F:=F)) : CLIPOutput :=
  {| loss := None;
     logits_per_image := logits_per_image o;
     logits_per_text := logits_per_text o;
     text_embeds := text_embeds o;
     image_embeds := image_embeds o |}.
Definition strip_loss (r : forward_result (F:=F)) : forward_result :=
  match r with
  | AsTuple o => AsTuple (without_loss o)
  | AsCLIPOutput o => AsCLIPOutput (without_loss o)
  end.
Definition map_outcome {A B : Type} (f : A -> B) (c : outcome A) : outcome B :=
  match c with Ok a => Ok (f a) | Raise e => Raise e end.

(** the Adaptor [self] with another [vision_model_type] *)
Definition with_vision_model_type
    (self : Adaptor (F:=F) W HeadMask ExtMask EncExtras LongTensor MaskTensor PixelValues)
    (tag : string)
  : Adaptor (F:=F) W HeadMask ExtMask EncExtras LongTensor MaskTensor PixelValues :=
  {| vision_model := vision_model self;
     text_model := text_model self;
     projection := projection self;
     adaptor_module := adaptor_module self;
     vision_model_type := tag;
     vision_output_dim := vision_output_dim self;
     adaptor_projection_dim := adaptor_projection_dim self;
     logit_scale_init_value := logit_scale_init_value self;
     logit_scale := logit_scale self |}.

(** the Adaptor [self] with another encoder stack in its fusion module *)
Definition with_encoder
    (self : Adaptor (F:=F) W HeadMask ExtMask EncExtras LongTensor MaskTensor PixelValues)
    (enc : callable W (encoder_args (F:=F) HeadMask ExtMask) (encoder_outputs (F:=F) EncExtras))
  : Adaptor (F:=F) W HeadMask ExtMask EncExtras LongTensor MaskTensor PixelValues :=
  {| vision_model := vision_model self;
     text_model := text_model self;
     projection := projection self;
     adaptor_module :=
       {| config := config (adaptor_module self);
          encoder := enc;
          pooler := pooler (adaptor_module self) |};
     vision_model_type := vision_model_type self;
     vision_output_dim := vision_output_dim self;
     adaptor_projection_dim := adaptor_projection_dim self;
     logit_scale_init_value := logit_scale_init_value self;
     logit_scale := logit_scale self |}.

(** A call of the encoder stack as a plain bidirectional encoder: no
    cache, no cross-attention inputs, no extra outputs, a structured
    result. *)
Definition plain_encoder_call (x : encoder_args (F:=F) HeadMask ExtMask) : Prop :=
  ea_use_cache x = false /\
  ea_past_key_values x = None /\
  ea_encoder_hidden_states x = None /\
  ea_encoder_attention_mask x = None /\
  ea_output_attentions x = false /\
  ea_output_hidden_states x = false /\
  ea_return_dict x = true.

End Views.

(** ** numpy arrays (src/image_processor.py)

    An array is its shape and its elements in row-major order, so
    that its rank is [len(a.shape)] whatever its size.  The
    operations are the ones the two image processors apply, with the
    errors numpy raises. *)
Section Numpy.
Context {F : Type} {SF : Scalar F}.

Record ndarray : Type := { shape : list nat; data : list F }.

(** [len(a.shape)] *)
Definition ndim (a : ndarray) : nat := length (shape a).
(** the number of elements of an array of shape [s] *)
Definition numel (s : list nat) : nat := fold_right Nat.mul 1 s.
Definition well_formed (a : ndarray) : Prop := length (data a) = numel (shape a).

(** [count] consecutive blocks of [size] elements *)
Fixpoint chunks (count size : nat) (l : list F) : list (list F) :=
  match count with
  | 0 => []
  | S c => firstn size l :: chunks c size (skipn size l)
  end.

(** [a[:, :, :, 0]] *)
Definition index_axis3_0 (a : ndarray) : outcome ndarray :=
  match shape a with
  | n :: h :: w :: c :: rest =>
      if (c =? 0)%nat
      then Raise (IndexError "index 0 is out of bounds for axis 3 with size 0")
      else Ok {| shape := n :: h :: w :: rest;
                 data := concat (map (firstn (numel rest))
                                     (chunks (n * h * w) (c * numel rest) (data a))) |}
  | _ => Raise (IndexError "too many indices for array")
  end.

(** [a[:, None, :, :]] *)
Definition add_axis1 (a : ndarray) : outcome ndarray :=
  match shape a with
  | n :: h :: w :: rest => Ok {| shape := n :: 1 :: h :: w :: rest; data := data a |}
  | _ => Raise (IndexError "too many indices for array")
  end.

(** [for img in a]: the sub-arrays along the first axis *)
Definition iterate (a : ndarray) : outcome (list ndarray) :=
  match shape a with
  | n :: s => Ok (map (fun d => {| shape := s; data := d |}) (chunks n (numel s) (data a)))
  | [] => Raise (TypeError "iteration over a 0-d array")
  end.

Definition shape_eqb (s s' : list nat) : bool :=
  if list_eq_dec Nat.eq_dec s s' then true else false.

(** [np.array(items)] for a list of arrays *)
Definition np_array (items : list ndarray) : outcome ndarray :=
  match items with
  | [] => Ok {| shape := [0]; data := [] |}
  | x :: rest =>
      if forallb (fun y => shape_eqb (shape y) (shape x)) rest
      then Ok {| shape := length items :: shape x; data := concat (map data items) |}
      else Raise (ValueError "setting an array element with a sequence. The requested array has an inhomogeneous shape")
  end.

(** [a.squeeze(1)] *)
Definition squeeze1 (a : ndarray) : outcome ndarray :=
  match shape a with
  | n :: c :: rest =>
      if (c =? 1)%nat
      then Ok {| shape := n :: rest; data := data a |}
      else Raise (ValueError "cannot select an axis to squeeze out which has size not equal to one")
  | _ => Raise (ValueError "axis 1 is out of bounds for array of dimension 1")
  end.

(** [a.shape[0]] *)
Definition shape0 (a : ndarray) : outcome nat :=
  match shape a with
  | n :: _ => Ok n
  | [] => Raise (IndexError "tuple index out of range")
  end.

(** [np.zeros(s)] *)
Definition zeros (s : list nat) : ndarray :=
  {| shape := s; data := repeat fzero (numel s) |}.

(** Broadcasting the elements of an array of shape [v] to the shape
    [t] of the same rank: an axis of [v] is as long as the one of
    [t], or of size 1 and repeated. *)
Fixpoint expand (t v : list nat) (d : list F) : list F :=
  match t, v with
  | n :: t', m :: v' =>
      if (m =? n)%nat
      then concat (map (expand t' v') (chunks m (numel v') d))
      else concat (repeat (expand t' v' d) n)
  | _, _ => d
  end.
Fixpoint broadcastable (t v : list nat) : bool :=
  match t, v with
  | [], [] => true
  | n :: t', m :: v' => ((m =? n)%nat || (m =? 1)%nat) && broadcastable t' v'
  | _, _ => false
  end.
(** leading axes of size 1 do not count when an array is assigned *)
Fixpoint strip_ones (excess : nat) (v : list nat) : list nat :=
  match excess, v with
  | S k, 1 :: v' => strip_ones k v'
  | _, _ => v
  end.
(** the elements of [value] as assigned to a region of shape [t] *)
Definition broadcast_to (t : list nat) (value : ndarray) : outcome (list F) :=
  let v := strip_ones (length (shape value) - length t) (shape value) in
  let v := repeat 1 (length t - length v) ++ v in
  if broadcastable t v
  then Ok (expand t v (data value))
  else Raise (ValueError "could not broadcast input array").

(** [a[:, k, ...] = value] *)
Definition assign_channel (k : nat) (a value : ndarray) : outcome ndarray :=
  match shape a with
  | n :: c :: rest =>
      if (k <? c)%nat then
        let* v := broadcast_to (n :: rest) value in
        Ok {| shape := shape a;
              data := concat
                        (map (fun p => firstn (k * numel rest) (fst p) ++ snd p ++
                                       skipn ((k + 1) * numel rest) (fst p))
                             (combine (chunks n (c * numel rest) (data a))
                                      (chunks n (numel rest) v))) |}
      else Raise (IndexError "index is out of bounds for axis 1")
  | _ => Raise (IndexError "too many indices for array")
  end.

Fixpoint map_outcomes {A B : Type} (f : A -> outcome B) (l : list A) : outcome (list B) :=
  match l with
  | [] => Ok []
  | x :: rest =>
      let* y := f x in
      let* ys := map_outcomes f rest in
      Ok (y :: ys)
  end.

(** What a processor returns: [{"pixel_values": imgs}] or the tensor. *)
Inductive processed : Type :=
| PixelDict (pixel_values : ndarray)
| PixelTensor (imgs : ndarray).

End Numpy.

(** ** The image processors (src/image_processor.py) *)
Section ImageProcessors.
Variable W : Type.
Context {F : Type} {SF : Scalar F}.

(** torchxrayvision: [xrv.datasets.normalize(imgs, maxval)],
    [XRayCenterCrop()] and [XRayResizer(size)] applied to one image;
    and the rounding of [Tensor.float()]. *)
Variable normalize : ndarray (F:=F) -> nat -> outcome (ndarray (F:=F)).
Variable XRayCenterCrop : ndarray (F:=F) -> outcome (ndarray (F:=F)).
Variable XRayResizer : nat -> ndarray (F:=F) -> outcome (ndarray (F:=F)).
Variable float32_of : F -> F.

Notation "x <- c ;; k" := (bind (W:=W) c (fun x => k))
  (at level 61, c at next level, right associativity).

(** [torchvision.transforms.Compose([XRayCenterCrop(), XRayResizer(224)])] *)
Definition transform (img : ndarray (F:=F)) : outcome (ndarray (F:=F)) :=
  let* cropped := XRayCenterCrop img in
  XRayResizer 224 cropped.

(** [torch.from_numpy(a)] shares shape and elements; [t.float()] *)
Definition from_numpy (a : ndarray (F:=F)) : ndarray (F:=F) := a.
Definition tensor_float (t : ndarray (F:=F)) : ndarray (F:=F) :=
  {| shape := shape t; data := map float32_of (data t) |}.

(** Lines 13-16 and 35-38, the same in both processors: drop the
    trailing axis of an array of rank above 3, complain about a rank
    below 3. *)
Definition check_2d (imgs : ndarray (F:=F)) : M W (ndarray (F:=F)) :=
  imgs <- lift (if (3 <? ndim imgs)%nat then index_axis3_0 imgs else Ok imgs) ;;
  _ <- (if (ndim imgs <? 3)%nat
        then print "error, dimension lower than 2 for image"
        else ret tt) ;;
  ret imgs.

(** ae_image_processor (lines 8-27) *)
Definition ae_image_processor (imgs : ndarray (F:=F)) (return_dict : bool)
  : M W (processed (F:=F)) :=
  imgs <- lift (normalize imgs 255) ;;
  imgs <- check_2d imgs ;;
  (* Add color channel *)
  imgs <- lift (add_axis1 imgs) ;;
  items <- lift (iterate imgs) ;;
  outs <- lift (map_outcomes transform items) ;;
  imgs <- lift (np_array outs) ;;
  let imgs := from_numpy imgs in
  if return_dict then ret (PixelDict imgs) else ret (PixelTensor imgs).

(** timm_image_processor (lines 30-53) *)
Definition timm_image_processor (imgs : ndarray (F:=F)) (return_dict : bool)
  : M W (processed (F:=F)) :=
  imgs <- lift (normalize imgs 255) ;;
  imgs <- check_2d imgs ;;
  expanded <- lift (add_axis1 imgs) ;;
  items <- lift (iterate expanded) ;;
  outs <- lift (map_outcomes transform items) ;;
  stacked <- lift (np_array outs) ;;
  gray <- lift (squeeze1 stacked) ;;
  (* convert to 3 channels *)
  n <- lift (shape0 imgs) ;;
  let imgs := zeros [n; 3; 224; 224] in
  imgs <- lift (assign_channel 0 imgs gray) ;;
  imgs <- lift (assign_channel 1 imgs gray) ;;
  imgs <- lift (assign_channel 2 imgs gray) ;;
  let imgs := from_numpy imgs in
  if return_dict then ret (PixelDict imgs) else ret (PixelTensor (tensor_float imgs)).

End ImageProcessors.

(** ** Stand-ins for the external collaborators

    Small executable stand-ins for the modules and library functions
    the model takes as parameters, over binary32, so that the model
    can be run on concrete tensors.  The state of the runtime is a
    counter of the random numbers drawn so far. *)
Module Doubles.
Import Binary32.

Definition t2 : Type := tensor2 (F:=float32).
Definition t3 : Type := tensor3 (F:=float32).
Definition t4 : Type := tensor4 (F:=float32).

(** the mask utilities keep the mask and add the two broadcast axes *)
Definition ext_mask (m : t2) (shape : nat * nat) : outcome t4 :=
  Ok (map (fun row => [[row]]) m).
Definition inv_mask (m : t2) : outcome t4 := Ok (map (fun row => [[row]]) m).
(** [get_head_mask(None, n)] is [[None] * n] *)
Definition head_mask (h : option unit) (n : nat) : outcome (list (option unit)) :=
  Ok (repeat h n).
(** a stand-in for the cross-entropy kernel: minus the sum of the
    logits the targets select *)
Definition ce (logits : t2) (targets : list nat) : float32 :=
  SFopp (fold_left add (map (fun p => nth (snd p) (fst p) zero) (combine logits targets)) zero).

(** an encoder that returns its input sequence, a pooler that returns
    the first position *)
Definition enc : callable nat (encoder_args (list (option unit)) t4) (encoder_outputs (F:=float32) unit) :=
  fun a s => (Ok {| eo_first := ea_hidden_states a; eo_rest := tt |}, s).
Definition pool : callable nat t3 t2 :=
  fun x s => (Ok (map (hd []) x), s).
(** an encoder with dropout: it zeroes the sequence on every other call *)
Definition enc_dropout : callable nat (encoder_args (list (option unit)) t4) (encoder_outputs (F:=float32) unit) :=
  fun a s =>
    (Ok {| eo_first := if Nat.even s then ea_hidden_states a
                       else map (map (map (fun _ => zero))) (ea_hidden_states a);
           eo_rest := tt |}, S s).

(** a text encoder: a one-hot embedding of the parity of each token *)
Definition embed_token (id : nat) : list float32 :=
  if Nat.even id then [one; zero] else [zero; one].
Definition text_enc : callable nat (text_args (list (list nat)) (list (list nat))) (pyobj (F:=float32)) :=
  fun a s =>
    match ta_input_ids a with
    | Some ids => (Ok (ModelOutput (map (map embed_token) ids)), s)
    | None => (Raise (ValueError "You have to specify input_ids"), s)
    end.
Definition text : TextModel nat (list (list nat)) (list (list nat)) :=
  {| tm_hidden_size := 2; tm_forward := text_enc |}.

(** vision encoders over pixel values of shape [B, C, H, W]: one per
    supported tag, each answering in the form its branch reads *)
Definition with_pixels (k : t4 -> pyobj (F:=float32)) : callable nat (vision_args t4) (pyobj (F:=float32)) :=
  fun a s =>
    match va_pixel_values a with
    | Some px => (Ok (k px), s)
    | None => (Raise (ValueError "You have to specify pixel_values"), s)
    end.
Definition vision_hf := with_pixels (fun px => ModelOutput (permute_021 (flatten_from2 px))).
Definition vision_timm := with_pixels (fun px => TensorObj (permute_021 (flatten_from2 px))).
Definition vision_ae := with_pixels (fun px => DictObj (Some px)).

(** [nn.Linear]: torch refuses [in_features=None]; the weight is the
    leading block of the identity and the counter advances by the
    number of weights drawn *)
Definition unit_row (n j : nat) : list float32 :=
  map (fun k => if (k =? j)%nat then one else zero) (seq 0 n).
Definition new_linear : callable nat (option nat * nat * bool) (Linear (F:=float32)) :=
  fun a s =>
    match a with
    | (Some n, m, _) =>
        (Ok {| in_features := n; out_features := m;
               weight := map (unit_row n) (seq 0 m) |}, s + n * m)
    | (None, _, _) =>
        (Raise (TypeError "empty() received an invalid combination of arguments"), s)
    end.
(** a constructor that lets [None] through, as width 0, which torch
    does not: with it a construction reaches the assertion *)
Definition new_linear_lax : callable nat (option nat * nat * bool) (Linear (F:=float32)) :=
  fun a s =>
    match a with
    | (Some n, m, _) => new_linear a s
    | (None, m, b) => new_linear (Some 0, m, b) s
    end.
Definition new_encoder : callable nat BertConfig (callable nat (encoder_args (list (option unit)) t4) (encoder_outputs (F:=float32) unit)) :=
  fun c s => (Ok enc, S s).
Definition new_pooler : callable nat BertConfig (callable nat t3 t2) :=
  fun c s => (Ok pool, S s).

(** a fusion module whose encoder has dropout *)
Definition fusion_dropout : AdaptorModule nat (list (option unit)) t4 unit :=
  {| config := BertConfig_new 2; encoder := enc_dropout; pooler := pool |}.

Definition linear2 : Linear (F:=float32) :=
  {| in_features := 2; out_features := 2; weight := [[one; zero]; [zero; one]] |}.
Definition project2 : Project (F:=float32) :=
  {| text_embed_dim := 2; vision_embed_dim := Some 2; projection_dim := 2;
     visual_projection := linear2; text_projection := linear2 |}.
Definition fusion : AdaptorModule nat (list (option unit)) t4 unit :=
  {| config := BertConfig_new 2; encoder := enc; pooler := pool |}.

(** an Adaptor with the given vision encoder and tag *)
Definition adaptor (v : callable nat (vision_args t4) (pyobj (F:=float32))) (tag : string)
  : Adaptor nat (list (option unit)) t4 unit (list (list nat)) (list (list nat)) t4 :=
  {| vision_model := v; text_model := text; projection := project2;
     adaptor_module := fusion; vision_model_type := tag;
     vision_output_dim := Some 2; adaptor_projection_dim := 2;
     logit_scale_init_value := one; logit_scale := one |}.

(** the same with the dropout encoder inside *)
Definition adaptor_dropout
  : Adaptor nat (list (option unit)) t4 unit (list (list nat)) (list (list nat)) t4 :=
  {| vision_model := vision_ae; text_model := text; projection := project2;
     adaptor_module := fusion_dropout; vision_model_type := "ae";
     vision_output_dim := Some 2; adaptor_projection_dim := 2;
     logit_scale_init_value := one; logit_scale := one |}.

Definition args (ids : list (list nat)) (px : t4) (with_loss : bool)
  : forward_args (list (list nat)) (list (list nat)) t4 :=
  {| input_ids := Some ids; pixel_values := Some px; attention_mask := None;
     position_ids := None; return_loss := Some with_loss; token_type_ids := None;
     fa_output_attentions := None; fa_output_hidden_states := None;
     return_dict := Some true |}.

Definition forward :=
  Adaptor_forward (W:=nat) (EncExtras:=unit) ext_mask inv_mask head_mask ce
    (LongTensor:=list (list nat)) (MaskTensor:=list (list nat)) (PixelValues:=t4).
Definition fusion_forward :=
  AdaptorModule_forward (W:=nat) (EncExtras:=unit) ext_mask inv_mask head_mask.
Definition init := Adaptor_init (W:=nat) (HeadMask:=list (option unit)) (ExtMask:=t4) (EncExtras:=unit)
                     (LongTensor:=list (list nat)) (MaskTensor:=list (list nat)) (PixelValues:=t4).
Definition w0 : world nat := {| log := []; ext := 0 |}.

(** two images of two channels and 1x2 pixels, three such images *)
Definition px2 : t4 :=
  [ [[[one; two]]; [[two; one]]];
    [[[two; one]]; [[one; one]]] ].
Definition px3 : t4 :=
  [ [[[one; two]]; [[two; one]]];
    [[[two; one]]; [[one; one]]];
    [[[one; one]]; [[one; two]]] ].
End Doubles.

(** ** More stand-ins *)
Module MoreDoubles.
Import Binary32.

(** a vision encoder whose dict has no entry 'z' *)
Definition vision_no_z : callable nat (vision_args Doubles.t4) (pyobj (F:=float32)) :=
  Doubles.with_pixels (fun _ => DictObj None).

(** an encoder stack that returns its input sequence, except that it
    zeroes it when asked to use a cache *)
Definition enc_cache
  : callable nat (encoder_args (list (option unit)) Doubles.t4)
      (encoder_outputs (F:=float32) unit) :=
  fun a s =>
    (Ok {| eo_first := if ea_use_cache a
                       then map (map (map (fun _ => zero))) (ea_hidden_states a)
                       else ea_hidden_states a;
           eo_rest := tt |}, s).

Definition demo_args : forward_args (list (list nat)) (list (list nat)) Doubles.t4 :=
  Doubles.args [[1; 2; 3]; [2; 2; 2]] Doubles.px2 true.
Definition demo_adaptor := Doubles.adaptor Doubles.vision_ae "ae".

(** [BertEncoder(config)] as transformers builds it: a new module is
    in training mode, and the default config has dropout *)
Definition new_encoder_training
  : callable nat BertConfig
      (callable nat (encoder_args (list (option unit)) Doubles.t4)
         (encoder_outputs (F:=float32) unit)) :=
  fun c s => (Ok Doubles.enc_dropout, S s).
End MoreDoubles.

(** ** Stand-ins for torchxrayvision *)
Module ImageDoubles.
Import Binary32.

Definition arr : Type := ndarray (F:=float32).

Definition sub : float32 -> float32 -> float32 := SFsub prec emax.
Definition of_nat (n : nat) : float32 :=
  match Z.of_nat n with
  | Zpos m => binary_round prec emax false m 0
  | _ => zero
  end.
Definition maximum (x : float32) (rest : list float32) : float32 :=
  fold_left (fun m y => if SFltb m y then y else m) rest x.

(** [xrv.datasets.normalize(img, maxval)]: [img.max()] raises on an
    array without elements, a pixel above [maxval] is refused, and
    the pixels are scaled from [0, maxval] to [-1024, 1024]:
    [(2 * (img / maxval) - 1.) * 1024]. *)
Definition normalize (a : arr) (maxval : nat) : outcome arr :=
  match data a with
  | [] => Raise (ValueError
                   "zero-size array to reduction operation maximum which has no identity")
  | x :: rest =>
      if SFltb (of_nat maxval) (maximum x rest)
      then Raise (Exception "max image value higher than expected bound")
      else Ok {| shape := shape a;
                 data := map (fun v => mul (sub (mul two (div v (of_nat maxval))) one)
                                           (of_nat 1024))
                             (data a) |}
  end.
(** a crop that keeps the image, and a resizer that paints the square
    with the first pixel of the image *)
Definition crop (a : arr) : outcome arr := Ok a.
Definition resizer (size : nat) (a : arr) : outcome arr :=
  Ok {| shape := [1; size; size]; data := repeat (hd zero (data a)) (size * size) |}.
Definition to_float32 (x : float32) : float32 := x.

Definition ae := ae_image_processor (W:=nat) normalize crop resizer.
Definition timm := timm_image_processor (W:=nat) normalize crop resizer to_float32.

(** one image of 2 x 2 pixels; two images of 1 x 2 pixels *)
Definition single : arr := {| shape := [2; 2]; data := [one; two; two; one] |}.
Definition pair : arr := {| shape := [2; 1; 2]; data := [one; two; two; one] |}.
(** what [normalize] makes of them *)
Definition single_normalized : arr :=
  Eval vm_compute in match normalize single 255 with Ok b => b | Raise _ => single end.
Definition pair_normalized : arr :=
  Eval vm_compute in match normalize pair 255 with Ok b => b | Raise _ => pair end.
End ImageDoubles.

(** * Properties *)

(** [lia] after the tensor types are unfolded to lists *)
Ltac tlia := unfold tensor4, tensor3, tensor2, vec in *; lia.

(** ** Nested lists as tensors *)
Section TensorFacts.
Context {F : Type} {SF : Scalar F}.

Lemma cat_rows (t i : tensor3 (F:=F)) :
  length t = length i ->
  length (map (fun p => fst p ++ snd p) (combine t i)) = length t.
Proof.
  intros E. rewrite length_map, length_combine, <- E. apply Nat.min_id.
Qed.

Lemma wf3_size2 (b l h : nat) (t : tensor3 (F:=F)) :
  wf3 b l h t -> 1 <= b -> 1 <= l -> size2 t = h.
Proof.
  intros [Hb Hall] B1 L1. unfold size2.
  destruct t as [|m t']; simpl in *; [lia|].
  inversion Hall as [|? ? [Hl Hv] _]; subst.
  destruct m as [|v m']; simpl in *; [lia|].
  now inversion Hv.
Qed.

Lemma wf3_size1 (b l h : nat) (t : tensor3 (F:=F)) :
  wf3 b l h t -> 1 <= b -> size1 t = l.
Proof.
  intros [Hb Hall] B1. unfold size1.
  destruct t as [|m t']; simpl in *; [lia|].
  inversion Hall as [|? ? [Hl Hv] _]; now subst.
Qed.

Lemma cat_wf (b lt li h : nat) :
  forall (t i : tensor3 (F:=F)),
    wf3 b lt h t -> wf3 b li h i ->
    wf3 b (lt + li) h (map (fun p => fst p ++ snd p) (combine t i)).
Proof.
  induction b as [|b IH]; intros t i [Ht At] [Hi Ai].
  - destruct t; simpl in *; [|discriminate]. split; [reflexivity|constructor].
  - destruct t as [|x t]; [discriminate|]. destruct i as [|y i]; [discriminate|].
    simpl in Ht, Hi. inversion At as [|? ? [Hx Vx] At']; subst.
    inversion Ai as [|? ? [Hy Vy] Ai']; subst.
    destruct (IH t i) as [Hl Hall]; [split; [lia|assumption]..|].
    split; simpl; [now rewrite Hl|].
    constructor; [|exact Hall].
    split; [rewrite length_app; reflexivity|].
    apply Forall_app; split; assumption.
Qed.

Lemma cat_split (b lt li h : nat) :
  forall (t i : tensor3 (F:=F)),
    wf3 b lt h t -> wf3 b li h i ->
    slice_to lt (map (fun p => fst p ++ snd p) (combine t i)) = t /\
    slice_from lt (map (fun p => fst p ++ snd p) (combine t i)) = i.
Proof.
  induction b as [|b IH]; intros t i [Ht At] [Hi Ai].
  - destruct t; [|discriminate]. destruct i; [|discriminate]. now split.
  - destruct t as [|x t]; [discriminate|]. destruct i as [|y i]; [discriminate|].
    simpl in Ht, Hi. inversion At as [|? ? [Hx Vx] At']; subst.
    inversion Ai as [|? ? [Hy Vy] Ai']; subst.
    destruct (IH t i) as [E1 E2]; [split; [lia|assumption]..|].
    unfold slice_to, slice_from in *. simpl. rewrite E1, E2. split; f_equal.
    + rewrite firstn_app, Nat.sub_diag, firstn_all. simpl. apply app_nil_r.
    + rewrite skipn_app, Nat.sub_diag, skipn_all. reflexivity.
Qed.

Lemma Forall_take {A : Type} (P : A -> Prop) (n : nat) :
  forall l : list A, Forall P l -> Forall P (firstn n l).
Proof.
  induction n as [|n IH]; intros l H; simpl; [constructor|].
  destruct H; constructor; auto.
Qed.

Lemma Forall_drop {A : Type} (P : A -> Prop) (n : nat) :
  forall l : list A, Forall P l -> Forall P (skipn n l).
Proof.
  induction n as [|n IH]; intros l H; simpl; [assumption|].
  destruct H; [constructor|auto].
Qed.

Lemma slices_wf (b lt li h : nat) (x : tensor3 (F:=F)) :
  wf3 b (lt + li) h x ->
  wf3 b lt h (slice_to lt x) /\ wf3 b li h (slice_from lt x).
Proof.
  intros [Hb Hall]. unfold slice_to, slice_from.
  split; (split; [now rewrite length_map|]); apply Forall_map;
    (eapply Forall_impl; [|exact Hall]); intros m [Hm Vm]; split.
  - rewrite length_firstn. lia.
  - apply Forall_take; assumption.
  - rewrite length_skipn. lia.
  - apply Forall_drop; assumption.
Qed.

Lemma embeddings_ok (b lt li h : nat) (t i : tensor3 (F:=F)) :
  1 <= lt -> 1 <= li -> wf3 b lt h t -> wf3 b li h i ->
  embeddings t i = Ok (map (fun p => fst p ++ snd p) (combine t i)).
Proof.
  intros Lt Li Wt Wi. unfold embeddings, cat_dim1, size0.
  destruct Wt as [Ht At], Wi as [Hi Ai]. rewrite Ht, Hi, Nat.eqb_refl. simpl.
  destruct b as [|b].
  - destruct t; [|discriminate]. destruct i; [|discriminate]. reflexivity.
  - rewrite (@wf3_size2 (S b) lt h t), (@wf3_size2 (S b) li h i);
      try lia; try (split; assumption).
    now rewrite Nat.eqb_refl.
Qed.

Lemma nth_map_in {A B : Type} (f : A -> B) (l : list A) (n : nat) (d : A) (d' : B) :
  n < length l -> nth n (map f l) d' = f (nth n l d).
Proof.
  intros H. rewrite (nth_indep _ d' (f d)) by (rewrite length_map; exact H).
  apply map_nth.
Qed.

Lemma map_nth_seq {A : Type} (l : list A) (d : A) :
  map (fun i => nth i l d) (seq 0 (length l)) = l.
Proof.
  apply (nth_ext _ _ d d).
  - now rewrite length_map, length_seq.
  - intros n H. rewrite length_map, length_seq in H.
    rewrite (nth_map_in _ _ 0) by (rewrite length_seq; exact H).
    now rewrite seq_nth.
Qed.

Lemma wf2_size1 (r c : nat) (m : tensor2 (F:=F)) :
  wf2 r c m -> 1 <= r -> size1 m = c.
Proof.
  intros [Hr Hall] R1. unfold size1. destruct m as [|v m]; simpl in *; [lia|].
  now inversion Hall.
Qed.

Lemma wf2_row (r c : nat) (m : tensor2 (F:=F)) (i : nat) :
  wf2 r c m -> i < r -> length (nth i m []) = c.
Proof.
  intros [Hr Hall] Hi. rewrite Forall_forall in Hall. apply Hall, nth_In. lia.
Qed.

Lemma transpose_wf (r c : nat) (m : tensor2 (F:=F)) :
  wf2 r c m -> 1 <= r -> wf2 c r (transpose m).
Proof.
  intros Hm R1. unfold transpose. rewrite (wf2_size1 Hm R1).
  split; [now rewrite length_map, length_seq|].
  apply Forall_map, Forall_forall. intros j _. rewrite length_map. apply Hm.
Qed.

(** the entry (j, i) of the transpose is the entry (i, j) *)
Lemma transpose_nth (r c : nat) (m : tensor2 (F:=F)) (i j : nat) (d : F) :
  wf2 r c m -> i < r -> j < c ->
  nth i (nth j (transpose m) []) d = nth j (nth i m []) d.
Proof.
  intros Hm Hi Hj. unfold transpose. rewrite (@wf2_size1 r c m Hm) by lia.
  rewrite (nth_map_in _ _ 0) by (rewrite length_seq; exact Hj).
  rewrite seq_nth by exact Hj. simpl.
  rewrite (nth_map_in _ _ []) by (destruct Hm as [Hr _]; tlia).
  apply nth_indep. rewrite (wf2_row Hm Hi). exact Hj.
Qed.

Lemma transpose_involutive (r c : nat) (m : tensor2 (F:=F)) :
  wf2 r c m -> 1 <= c -> transpose (transpose m) = m.
Proof.
  intros Hm C1. destruct r as [|r].
  - destruct Hm as [Hr _]. destruct m; [reflexivity|discriminate].
  - assert (Ht : wf2 c (S r) (transpose m)) by (apply transpose_wf; [exact Hm|lia]).
    unfold transpose at 1. rewrite (wf2_size1 Ht C1).
    destruct Hm as [Hr Hall]. rewrite <- Hr at 1.
    rewrite <- (map_nth_seq m []) at 2.
    apply map_ext_in. intros i Hi. apply in_seq in Hi.
    assert (Hrow : length (nth i m []) = c)
      by (apply (@wf2_row (S r) c m i); [split; assumption|lia]).
    rewrite <- (map_nth_seq (nth i m []) fzero), Hrow.
    unfold transpose. rewrite (@wf2_size1 (S r) c m) by (try split; try assumption; lia).
    rewrite map_map. apply map_ext_in. intros j Hj. apply in_seq in Hj.
    rewrite (nth_map_in _ _ []) by tlia. reflexivity.
Qed.

Lemma select0_length (x : tensor3 (F:=F)) :
  forall t, select0 x = Ok t -> length t = length x.
Proof.
  induction x as [|m x IH]; intros t H; simpl in H.
  - now inversion H.
  - destruct m as [|v m]; [discriminate|].
    destruct (select0 x) as [r|e]; simpl in H; [|discriminate].
    inversion H. simpl. now rewrite (IH r).
Qed.

Lemma select0_size1 (x : tensor3 (F:=F)) (t : tensor2 (F:=F)) :
  select0 x = Ok t -> size1 t = size2 x.
Proof.
  destruct x as [|m x]; simpl; intros H; [now inversion H|].
  destruct m as [|v m]; [discriminate|].
  destruct (select0 x) as [r|e]; simpl in H; [|discriminate].
  now inversion H.
Qed.

Lemma transpose_length (m : tensor2 (F:=F)) : length (transpose m) = size1 m.
Proof. unfold transpose. now rewrite length_map, length_seq. Qed.

Lemma transpose_size1 (m : tensor2 (F:=F)) :
  1 <= size1 m -> size1 (transpose m) = length m.
Proof.
  intros H. unfold transpose. destruct (size1 m) as [|k]; [lia|].
  unfold size1. simpl. now rewrite length_map.
Qed.

Lemma rows_of_map_wf {A : Type} (g : A -> vec (F:=F)) (a : list A) (c : nat) :
  (forall x, length (g x) = c) -> wf2 (length a) c (map g a).
Proof.
  intros Hg. split; [now rewrite length_map|].
  apply Forall_map, Forall_forall. intros x _. apply Hg.
Qed.

Lemma mul_scalar_wf (r c : nat) (m : tensor2 (F:=F)) (s : F) :
  wf2 r c m -> wf2 r c (mul_scalar m s).
Proof.
  intros [Hr Hall]. unfold mul_scalar. split; [now rewrite length_map|].
  apply Forall_map. eapply Forall_impl; [|exact Hall].
  intros v Hv. now rewrite length_map.
Qed.

Lemma matmul_value (a b sim : tensor2 (F:=F)) :
  matmul a b = Ok sim ->
  sim = map (fun row => map (dot row) (transpose b)) a /\ size1 a = length b.
Proof.
  unfold matmul, size0.
  destruct (Nat.eqb_spec (size1 a) (length b)) as [E|E]; [|discriminate].
  intros H. inversion H. auto.
Qed.

Lemma all_equal_is_repeat {A : Type} (x : A) (v : list A) :
  Forall (eq x) v -> v = repeat x (length v).
Proof.
  induction 1 as [|y v Hy _ IH]; simpl; [reflexivity|]. now rewrite <- Hy, <- IH.
Qed.

(** a mask of ones of shape (r, c) is [torch.ones((r, c))] *)
Lemma all_ones_is_ones2 (r c : nat) (m : tensor2 (F:=F)) :
  wf2 r c m -> Forall (Forall (eq fone)) m -> m = ones2 r c.
Proof.
  intros [Hr Hall] Hones. unfold ones2, full2. subst r.
  induction m as [|v m IH]; simpl; [reflexivity|].
  inversion Hall as [|? ? Hv Hall']; subst.
  inversion Hones as [|? ? Hv1 Hones']; subst.
  rewrite <- IH by assumption. f_equal. apply all_equal_is_repeat. exact Hv1.
Qed.

Lemma select0_wf (b l h : nat) :
  forall (x : tensor3 (F:=F)) (t : tensor2 (F:=F)),
    wf3 b l h x -> select0 x = Ok t -> wf2 b h t.
Proof.
  induction b as [|b IH]; intros x t [Hb Hall] H.
  - destruct x; [|discriminate]. inversion H. split; [reflexivity|constructor].
  - destruct x as [|m x]; [discriminate|]. simpl in H.
    destruct m as [|v m]; [discriminate|].
    destruct (select0 x) as [r|e] eqn:E; simpl in H; [|discriminate].
    inversion H; subst t. inversion Hall as [|? ? [Hm Hv] Hall']; subst.
    simpl in Hb. destruct (IH x r) as [Hr Hrows]; [split; [lia|assumption]|exact E|].
    split; [simpl; now rewrite Hr|].
    constructor; [now inversion Hv|exact Hrows].
Qed.

Lemma combine_swap {A B : Type} (u : list A) :
  forall v : list B, combine v u = map (fun p => (snd p, fst p)) (combine u v).
Proof.
  induction u as [|a u IH]; intros [|b v]; simpl; try reflexivity.
  now rewrite IH.
Qed.

(** the dot product does not depend on the order when the product
    of two scalars does not *)
Lemma dot_comm (u v : vec (F:=F)) :
  (forall x y : F, fmul x y = fmul y x) -> dot u v = dot v u.
Proof.
  intros Hc. unfold dot. rewrite (combine_swap u v), map_map. simpl.
  f_equal. apply map_ext. intros p. apply Hc.
Qed.

Lemma transpose_mul_scalar (r c : nat) (m : tensor2 (F:=F)) (s : F) :
  wf2 r c m -> transpose (mul_scalar m s) = mul_scalar (transpose m) s.
Proof.
  intros Hm. unfold transpose, mul_scalar.
  assert (Hs : size1 (map (map (fun x => fmul x s)) m) = size1 m).
  { unfold size1. destruct m; simpl; [reflexivity|apply length_map]. }
  rewrite Hs, !map_map.
  destruct r as [|r].
  { destruct Hm as [Hr _]. apply length_zero_iff_nil in Hr. now subst m. }
  rewrite (@wf2_size1 (S r) c m Hm) by lia.
  apply map_ext_in. intros j Hj. apply in_seq in Hj.
  rewrite !map_map. apply map_ext_in. intros row Hrow.
  destruct Hm as [_ Hall]. rewrite Forall_forall in Hall.
  apply (nth_map_in (fun x => fmul x s)). rewrite (Hall row Hrow). lia.
Qed.

(** The similarity of [a] and [c]: all the dot products of a row of
    [a] and a row of [c]; with the two in each other's place it is
    the transpose. *)
Lemma matmul_transpose_value (n m d : nat) (a c : tensor2 (F:=F)) :
  wf2 n d a -> wf2 m d c -> 1 <= n -> 1 <= m -> 1 <= d ->
  matmul a (transpose c) = Ok (map (fun row => map (dot row) c) a).
Proof.
  intros Ha Hc N1 M1 D1. unfold matmul, size0.
  rewrite transpose_length, (wf2_size1 Hc M1), (transpose_involutive Hc D1).
  now rewrite (wf2_size1 Ha N1), Nat.eqb_refl.
Qed.

Lemma similarity_swap (n m d : nat) (a c : tensor2 (F:=F)) :
  (forall x y : F, fmul x y = fmul y x) ->
  wf2 n d a -> wf2 m d c -> 1 <= n ->
  transpose (map (fun row => map (dot row) c) a) = map (fun row => map (dot row) a) c.
Proof.
  intros Hcomm Ha Hc N1.
  assert (Hg : wf2 n m (map (fun row => map (dot row) c) a)).
  { destruct Ha as [Hn _], Hc as [Hm _]. rewrite <- Hn, <- Hm.
    apply rows_of_map_wf. intros x. apply length_map. }
  unfold transpose. rewrite (wf2_size1 Hg N1).
  destruct Hc as [Hm _].
  transitivity (map (fun row => map (dot row) a) (map (fun i => nth i c []) (seq 0 m)));
    [|now rewrite <- Hm, map_nth_seq].
  rewrite map_map.
  apply map_ext_in. intros j Hj. apply in_seq in Hj.
  rewrite map_map. apply map_ext. intros row.
  rewrite (nth_map_in _ _ []) by tlia. apply dot_comm, Hcomm.
Qed.

Lemma wf3_wide (b l h : nat) (x : tensor3 (F:=F)) :
  wf3 b l h x -> 1 <= size2 x -> 1 <= b /\ 1 <= l /\ 1 <= h.
Proof.
  intros [Hb Hall] Hs. unfold size2 in Hs.
  destruct x as [|m x]; [simpl in Hs; lia|].
  inversion Hall as [|? ? [Hm Hv] _]; subst.
  destruct m as [|v m]; [simpl in Hs; lia|].
  inversion Hv; subst. simpl in *. lia.
Qed.

Lemma combine_map_r {A B : Type} (f : A -> B) (l : list A) :
  combine l (map f l) = map (fun a => (a, f a)) l.
Proof. induction l as [|a l IH]; simpl; [reflexivity|now rewrite IH]. Qed.

(** dividing by the kept norm is dividing every vector by its own norm *)
Lemma tdiv_norm (x : tensor3 (F:=F)) :
  tdiv x (norm_keepdim x) = map (map (fun v => map (fun a => fdiv a (l2norm v)) v)) x.
Proof.
  unfold tdiv, norm_keepdim. rewrite combine_map_r, map_map.
  apply map_ext. intros m. simpl. rewrite combine_map_r, map_map. reflexivity.
Qed.

Lemma tdiv_norm_rows (x : tensor3 (F:=F)) :
  length (tdiv x (norm_keepdim x)) = length x.
Proof. rewrite tdiv_norm. apply length_map. Qed.

Lemma tdiv_norm_wf (b l h : nat) (x : tensor3 (F:=F)) :
  wf3 b l h x -> wf3 b l h (tdiv x (norm_keepdim x)).
Proof.
  intros [Hb Hall]. rewrite tdiv_norm. split; [now rewrite length_map|].
  apply Forall_map. eapply Forall_impl; [|exact Hall].
  intros m [Hm Hv]. split; [now rewrite length_map|].
  apply Forall_map. eapply Forall_impl; [|exact Hv].
  intros v Hl. now rewrite length_map.
Qed.

(** the squared norm of a vector of zeros, when adding and
    multiplying zeros gives zero *)
Lemma sum_squares_zeros (n : nat) :
  fmul fzero fzero = fzero -> fadd fzero fzero = fzero ->
  fold_left fadd (map (fun x => fmul x x) (repeat fzero n)) fzero = fzero.
Proof.
  intros Hm Ha. induction n as [|n IH]; simpl; [reflexivity|].
  now rewrite Hm, Ha.
Qed.

End TensorFacts.

(** ** The monad of calls *)
Section MonadFacts.
Variable W : Type.

Lemma bind_ok (A B : Type) (c : M W A) (k : A -> M W B) (w w' : world W) (b : B) :
  bind c k w = (Ok b, w') ->
  exists (a : A) (w1 : world W), c w = (Ok a, w1) /\ k a w1 = (Ok b, w').
Proof.
  unfold bind. destruct (c w) as [[a|e] w1]; intros H; [|discriminate].
  exists a, w1. now split.
Qed.

Lemma lift_ok (A : Type) (c : outcome A) (w w' : world W) (a : A) :
  lift c w = (Ok a, w') -> c = Ok a /\ w' = w.
Proof. unfold lift. intros H. inversion H. now split. Qed.

Lemma ret_ok (A : Type) (x a : A) (w w' : world W) :
  ret x w = (Ok a, w') -> a = x /\ w' = w.
Proof. unfold ret. intros H. inversion H. now split. Qed.

Lemma invoke_log (X Y : Type) (ev : event) (f : callable W X Y) (x : X)
    (w w' : world W) (r : outcome Y) :
  invoke ev f x w = (r, w') -> log w' = log w ++ [ev].
Proof.
  unfold invoke. destruct (f x (ext w)) as [r0 s]. intros H. inversion H. reflexivity.
Qed.

Lemma invoke_deterministic (X Y : Type) (ev : event) (f : callable W X Y) (x : X)
    (w w' : world W) :
  deterministic f -> fst (invoke ev f x w) = fst (invoke ev f x w').
Proof.
  intros D. unfold invoke. specialize (D x (ext w) (ext w')).
  destruct (f x (ext w)), (f x (ext w')). exact D.
Qed.

(** two computations whose outcomes do not depend on the world *)
Lemma bind_world_independent (A B : Type) (c : M W A) (k : A -> M W B) :
  (forall w w', fst (c w) = fst (c w')) ->
  (forall a w w', fst (k a w) = fst (k a w')) ->
  forall w w', fst (bind c k w) = fst (bind c k w').
Proof.
  intros Hc Hk w w'. unfold bind. specialize (Hc w w').
  destruct (c w) as [[a|e] w1], (c w') as [[a'|e'] w1']; simpl in Hc;
    try discriminate; inversion Hc; subst; [apply Hk|reflexivity].
Qed.

Lemma bind_wi (A B : Type) (c : M W A) (k : A -> M W B) :
  world_independent c -> (forall a, world_independent (k a)) ->
  world_independent (bind c k).
Proof. intros Hc Hk w w'. now apply bind_world_independent. Qed.

Lemma lift_wi (A : Type) (c : outcome A) : world_independent (lift (W:=W) c).
Proof. intros w w'. reflexivity. Qed.

Lemma ret_wi (A : Type) (a : A) : world_independent (ret (W:=W) a).
Proof. intros w w'. reflexivity. Qed.

Lemma print_wi (line : string) : world_independent (print (W:=W) line).
Proof. intros w w'. reflexivity. Qed.

Lemma invoke_wi (X Y : Type) (ev : event) (f : callable W X Y) (x : X) :
  deterministic f -> world_independent (invoke ev f x).
Proof. intros D w w'. now apply invoke_deterministic. Qed.

End MonadFacts.

(** ** Projection heads *)
Section ProjectFacts.
Context {F : Type} {SF : Scalar F}.

Lemma Linear_forward_ok (l : Linear) (x : pyobj) (y : tensor3 (F:=F)) :
  Linear_forward l x = Ok y <->
  exists t, x = TensorObj t /\ size2 t = in_features l /\
            y = map (map (fun v => map (dot v) (weight l))) t.
Proof.
  split.
  - destruct x as [t|t|z]; simpl; try discriminate.
    destruct (Nat.eqb_spec (size2 t) (in_features l)) as [E|E]; [|discriminate].
    intros H. inversion H. exists t. auto.
  - intros (t & -> & E & ->). simpl. now rewrite E, Nat.eqb_refl.
Qed.

Lemma normalize_linear (l : Linear) (t : tensor3 (F:=F)) :
  let p := map (map (fun v => map (dot v) (weight l))) t in
  tdiv p (norm_keepdim p) = project_normalize l t.
Proof.
  simpl. rewrite tdiv_norm. unfold project_normalize. rewrite map_map.
  apply map_ext. intros m. rewrite map_map. reflexivity.
Qed.

Lemma Project_forward_tensors (self : Project) (t i ie te : tensor3 (F:=F)) :
  Project_forward self (TensorObj t) (TensorObj i) = Ok (ie, te) ->
  ie = project_normalize (visual_projection self) i /\
  te = project_normalize (text_projection self) t.
Proof.
  unfold Project_forward, Linear_forward.
  destruct (size2 t =? in_features (text_projection self))%nat; [|discriminate].
  destruct (size2 i =? in_features (visual_projection self))%nat; [|discriminate].
  simpl. intros H. inversion H. now rewrite <- !normalize_linear.
Qed.

(** C10.  Project.forward is called with the text sequence first and
    the image sequence second and returns the pair the other way
    round: whenever it returns, both arguments are tensors of the
    widths the heads expect, the first result is the image sequence
    projected by [visual_projection] and normalised, and the second is
    the text sequence projected by [text_projection] and normalised;
    and on such arguments it does return. *)
Theorem Project_forward_returns_image_then_text
    (self : Project) (text_embeds_ image_embeds_ : pyobj) (first second : tensor3 (F:=F)) :
  Project_forward self text_embeds_ image_embeds_ = Ok (first, second) <->
  exists text image,
    text_embeds_ = TensorObj text /\ image_embeds_ = TensorObj image /\
    size2 text = in_features (text_projection self) /\
    size2 image = in_features (visual_projection self) /\
    first = project_normalize (visual_projection self) image /\
    second = project_normalize (text_projection self) text.
Proof.
  unfold Project_forward. split.
  - destruct (Linear_forward (text_projection self) text_embeds_) as [pt|e] eqn:Et;
      simpl; [|discriminate].
    destruct (Linear_forward (visual_projection self) image_embeds_) as [pi|e] eqn:Ei;
      simpl; [|discriminate].
    apply Linear_forward_ok in Et as (text & -> & Wt & ->).
    apply Linear_forward_ok in Ei as (image & -> & Wi & ->).
    intros H. inversion H. exists text, image.
    repeat split; try assumption; apply normalize_linear.
  - intros (text & image & -> & -> & Wt & Wi & -> & ->).
    simpl. rewrite Wt, Wi, !Nat.eqb_refl. simpl.
    now rewrite <- !normalize_linear.
Qed.

Lemma project_normalize_wf (l : Linear) (b n h : nat) (x : tensor3 (F:=F)) :
  wf3 b n h x -> wf3 b n (length (weight l)) (project_normalize l x).
Proof.
  intros [Hb Hall]. unfold project_normalize. split; [now rewrite length_map|].
  apply Forall_map. eapply Forall_impl; [|exact Hall].
  intros m [Hm _]. split; [now rewrite length_map|].
  apply Forall_map, Forall_forall. intros v _. cbv zeta.
  now rewrite !length_map.
Qed.

End ProjectFacts.

(** An instance of C10 in binary32: the text sequence is one vector
    (3, 4), the image sequence one vector (0, 2); the first result is
    the image vector normalised, the second the text vector
    normalised. *)
Lemma Project_forward_returns_image_then_text_run :
  Project_forward Doubles.project2
    (TensorObj [[[S754_finite false 3 0; S754_finite false 4 0]]])
    (TensorObj [[[Binary32.zero; Binary32.two]]])
  = Ok (project_normalize Doubles.linear2 [[[Binary32.zero; Binary32.two]]],
        project_normalize Doubles.linear2 [[[S754_finite false 3 0; S754_finite false 4 0]]]).
Proof.
  apply (Project_forward_returns_image_then_text Doubles.project2).
  eexists. eexists. repeat split; reflexivity.
Defined.

(** ** The fusion module and the forward pass *)
Section AdaptorFacts.
Variable W : Type.
Context {F : Type} {SF : Scalar F}.
Variables HeadMaskArg HeadMask ExtMask EncExtras : Type.
Variable get_extended_attention_mask : tensor2 (F:=F) -> nat * nat -> outcome ExtMask.
Variable invert_attention_mask : tensor2 (F:=F) -> outcome ExtMask.
Variable get_head_mask : option HeadMaskArg -> nat -> outcome HeadMask.
Variable cross_entropy : tensor2 (F:=F) -> list nat -> F.
Variables LongTensor MaskTensor PixelValues : Type.

Local Abbreviation module_forward :=
  (AdaptorModule_forward (W:=W) (EncExtras:=EncExtras)
     get_extended_attention_mask invert_attention_mask get_head_mask).
Local Abbreviation score :=
  (fuse_and_score (W:=W) (EncExtras:=EncExtras)
     get_extended_attention_mask invert_attention_mask get_head_mask cross_entropy
     (LongTensor:=LongTensor) (MaskTensor:=MaskTensor) (PixelValues:=PixelValues)).
Local Abbreviation forward :=
  (Adaptor_forward (W:=W) (EncExtras:=EncExtras)
     get_extended_attention_mask invert_attention_mask get_head_mask cross_entropy
     (LongTensor:=LongTensor) (MaskTensor:=MaskTensor) (PixelValues:=PixelValues)).
Local Abbreviation AdaptorT :=
  (Adaptor W HeadMask ExtMask EncExtras LongTensor MaskTensor PixelValues).
Local Abbreviation ArgsT := (forward_args LongTensor MaskTensor PixelValues).

(** one step of a computation that returned *)
Ltac mstep H :=
  let a := fresh "x" in
  let w1 := fresh "w" in
  let Hc := fresh "Hc" in
  apply bind_ok in H as (a & w1 & Hc & H); cbv beta zeta in H;
  try (apply lift_ok in Hc as [Hc ->]).

(** What a returning call of AdaptorModule.forward went through. *)
Lemma module_forward_ok (self : AdaptorModule W HeadMask ExtMask EncExtras)
    (t i : tensor3 (F:=F)) (kw : am_kwargs HeadMaskArg) (w w' : world W)
    (r : am_result EncExtras) :
  module_forward self t i kw w = (Ok r, w') ->
  exists fused args eo sw,
    embeddings t i = Ok fused /\
    ea_hidden_states args = fused /\
    encoder self args (ext w) = (Ok eo, sw) /\
    am_first r = eo_first eo /\
    (kw_return_dict kw = Some true -> am_last_hidden_state r = Ok (eo_first eo)) /\
    log w' = log w ++ [EvEncoder; EvPooler].
Proof.
  unfold AdaptorModule_forward. intros H.
  mstep H. mstep H. mstep H. mstep H. mstep H.
  mstep H. mstep H.
  pose proof Hc4 as L1. apply invoke_log in L1.
  pose proof Hc5 as L2. apply invoke_log in L2.
  unfold invoke in Hc4. simpl in Hc4.
  match type of Hc4 with (let (_, _) := encoder self ?a _ in _) = _ =>
    destruct (encoder self a (ext w)) as [r0 sw] eqn:Eenc; exists x, a, x4, sw end.
  inversion Hc4; subst. clear Hc4.
  assert (Hw : w' = w1 /\
               r = if negb (or_default (kw_return_dict kw) (use_return_dict (config self)))
                   then AMTuple (eo_first x4) x5 (eo_rest x4)
                   else AMOutput (eo_first x4) x5 (eo_rest x4)).
  { destruct (negb _); apply ret_ok in H as [-> ->]; now split. }
  destruct Hw as [-> ->].
  repeat split; try assumption; try reflexivity.
  - now destruct (negb _).
  - intros Hrd. rewrite Hrd. reflexivity.
  - rewrite L2, L1, <- app_assoc. reflexivity.
Qed.

(** What a returning call of lines 221-253 went through. *)
Lemma score_ok (self : AdaptorT) (a : ArgsT) (iraw : option pyobj)
    (traw : tensor3 (F:=F)) (w w' : world W) (r : forward_result) :
  score self a iraw traw w = (Ok r, w') ->
  exists image_arg ie te outputs fused t0 i0 sim,
    iraw = Some image_arg /\
    Project_forward (projection self) (TensorObj traw) image_arg = Ok (ie, te) /\
    module_forward (adaptor_module self) te ie (am_defaults _) w = (Ok outputs, w') /\
    am_last_hidden_state outputs = Ok fused /\
    select0 (tdiv (slice_to (size1 te) fused)
                  (norm_keepdim (slice_to (size1 te) fused))) = Ok t0 /\
    select0 (tdiv (slice_from (size1 te) fused)
                  (norm_keepdim (slice_from (size1 te) fused))) = Ok i0 /\
    matmul t0 (transpose i0) = Ok sim /\
    fields_of r =
      {| loss := if truthy (return_loss a)
                 then Some (clip_loss cross_entropy
                              (mul_scalar sim (fexp (logit_scale self))))
                 else None;
         logits_per_image := transpose (mul_scalar sim (fexp (logit_scale self)));
         logits_per_text := mul_scalar sim (fexp (logit_scale self));
         text_embeds := tdiv (slice_to (size1 te) fused)
                             (norm_keepdim (slice_to (size1 te) fused));
         image_embeds := tdiv (slice_from (size1 te) fused)
                              (norm_keepdim (slice_from (size1 te) fused)) |}.
Proof.
  unfold fuse_and_score. intros H.
  mstep H. mstep H. mstep H. mstep H. mstep H. mstep H. mstep H.
  destruct iraw as [image_arg|]; [|discriminate].
  simpl in Hc. injection Hc as Hx. subst x.
  destruct x0 as [ie te]. simpl in *.
  exists image_arg, ie, te, x1, x2, x3, x4, x5.
  destruct (negb _); apply ret_ok in H as [-> ->];
    repeat split; try assumption; reflexivity.
Qed.

(** What a returning call of Adaptor.forward went through. *)
Lemma forward_ok (self : AdaptorT) (a : ArgsT) (w w' : world W) (r : forward_result) :
  forward self a w = (Ok r, w') ->
  exists iraw traw w1 w2,
    vision_dispatch self a w = (Ok iraw, w1) /\
    text_encode self a w1 = (Ok traw, w2) /\
    score self a iraw traw w2 = (Ok r, w').
Proof.
  unfold Adaptor_forward. intros H.
  apply bind_ok in H as (iraw & w1 & H1 & H).
  apply bind_ok in H as (traw & w2 & H2 & H).
  exists iraw, traw, w1, w2. auto.
Qed.

Lemma embeddings_value (t i fused : tensor3 (F:=F)) :
  embeddings t i = Ok fused ->
  fused = map (fun p => fst p ++ snd p) (combine t i) /\
  length t = length i /\ size2 t = size2 i.
Proof.
  unfold embeddings, cat_dim1, size0.
  destruct (Nat.eqb_spec (length t) (length i)) as [E|E]; [|discriminate].
  destruct (Nat.eqb_spec (size2 t) (size2 i)) as [E2|E2]; [|discriminate].
  simpl. intros H. inversion H. auto.
Qed.

(** The fusion module on well-shaped sequences: the concatenation has
    [lt + li] positions, text first, and so has what a
    shape-preserving encoder makes of it. *)
Lemma fusion_shape (self : AdaptorModule W HeadMask ExtMask EncExtras)
    (text image : tensor3 (F:=F)) (b lt li d : nat) :
  wf3 b lt d text -> wf3 b li d image ->
  shape_preserving (encoder self) ->
  forall kw w r w',
    module_forward self text image kw w = (Ok r, w') ->
    wf3 b (lt + li) d (am_first r) /\
    wf3 b lt d (slice_to lt (am_first r)) /\
    wf3 b li d (slice_from lt (am_first r)).
Proof.
  intros Wt Wi Hsp kw w r w' H.
  apply module_forward_ok in H as (fused & args & eo & sw & Hcat & Hargs & Henc & Hfirst & _).
  apply embeddings_value in Hcat as (-> & _ & _).
  assert (Wf : wf3 b (lt + li) d (am_first r)).
  { rewrite Hfirst. eapply Hsp; [exact Henc|]. rewrite Hargs. now apply cat_wf. }
  split; [exact Wf|]. now apply slices_wf.
Qed.

(** The shapes of the sequences a forward call returns, from the
    shapes of what the two encoders produced. *)
Lemma forward_shapes (self : AdaptorT) (a : ArgsT) (w w1 w2 w' : world W)
    (r : forward_result) (traw iraw : tensor3 (F:=F)) (b lt li ht hv : nat) :
  shape_preserving (encoder (adaptor_module self)) ->
  vision_dispatch self a w = (Ok (Some (TensorObj iraw)), w1) ->
  text_encode self a w1 = (Ok traw, w2) ->
  wf3 b lt ht traw -> wf3 b li hv iraw -> 1 <= lt -> 1 <= li ->
  forward self a w = (Ok r, w') ->
  wf3 b lt (length (weight (text_projection (projection self))))
      (text_embeds (fields_of r)) /\
  wf3 b li (length (weight (text_projection (projection self))))
      (image_embeds (fields_of r)).
Proof.
  intros Hsp Hv Ht Wt Wi Lt1 Li1 H.
  apply forward_ok in H as (iraw' & traw' & w1' & w2' & Hv' & Ht' & H).
  rewrite Hv in Hv'. inversion Hv'; subst iraw' w1'. clear Hv'.
  rewrite Ht in Ht'. inversion Ht'; subst traw' w2'. clear Ht'.
  apply score_ok in H
    as (image_arg & ie & te & outputs & fused & t0 & i0 & sim
        & Harg & Hproj & Hmod & Hlast & _ & _ & _ & Hfields).
  inversion Harg; subst image_arg. clear Harg.
  apply Project_forward_tensors in Hproj as [-> ->].
  rewrite Hfields. simpl.
  set (d := length (weight (text_projection (projection self)))).
  pose proof (project_normalize_wf (text_projection (projection self)) Wt) as Wte.
  pose proof (project_normalize_wf (visual_projection (projection self)) Wi) as Wie.
  fold d in Wte.
  pose proof Hmod as Hinv.
  apply module_forward_ok in Hinv
    as (fused' & args & eo & sw & Hcat & _ & _ & Hfirst & Hlhs & _).
  specialize (Hlhs eq_refl). rewrite Hlast in Hlhs. inversion Hlhs; subst fused.
  rewrite <- Hfirst in *. clear Hlhs.
  apply embeddings_value in Hcat as (_ & _ & Hsz).
  destruct b as [|b].
  - (* an empty batch *)
    assert (Wie0 : wf3 0 li d (project_normalize (visual_projection (projection self)) iraw)).
    { destruct Wie as [Hl _]. split; [exact Hl|].
      apply length_zero_iff_nil in Hl. rewrite Hl. constructor. }
    clear Wie. pose proof Hmod as Hs.
    eapply fusion_shape in Hs; [|exact Wte|exact Wie0|exact Hsp].
    destruct Hs as ([Hl _] & _ & _).
    apply length_zero_iff_nil in Hl. rewrite Hl. simpl.
    split; (split; [reflexivity|constructor]).
  - rewrite (wf3_size2 Wte), (wf3_size2 Wie) in Hsz by lia. fold d in Hsz.
    rewrite <- Hsz in Wie.
    pose proof Hmod as Hs.
    eapply fusion_shape in Hs; [|exact Wte|exact Wie|exact Hsp].
    destruct Hs as (_ & Ws1 & Ws2).
    rewrite (wf3_size1 Wte) by lia.
    split; now apply tdiv_norm_wf.
Qed.

(** C7.  For text and image sequences of shapes [B, Lt, D] and
    [B, Li, D] with Lt, Li >= 1 and any batch size B, and an encoder
    stack that keeps the shape of its input (what BertEncoder does):
    the concatenation succeeds, has Lt + Li positions and holds the
    text first and the image second; whatever AdaptorModule.forward
    returns has a sequence output of Lt + Li positions whose split at
    Lt has exactly Lt and exactly Li positions; and the text and image
    embeddings a forward call of the Adaptor returns, where
    text_seq_len is read off the projected text, have Lt and Li
    positions. *)
Theorem fusion_preserves_length_and_split (self : AdaptorT)
    (text image : tensor3 (F:=F)) (B Lt Li D : nat) :
  1 <= Lt -> 1 <= Li ->
  wf3 B Lt D text -> wf3 B Li D image ->
  shape_preserving (encoder (adaptor_module self)) ->
  (exists fused,
     embeddings text image = Ok fused /\
     wf3 B (Lt + Li) D fused /\
     slice_to Lt fused = text /\ slice_from Lt fused = image) /\
  (forall kw w r w',
     module_forward (adaptor_module self) text image kw w = (Ok r, w') ->
     wf3 B (Lt + Li) D (am_first r) /\
     wf3 B Lt D (slice_to Lt (am_first r)) /\
     wf3 B Li D (slice_from Lt (am_first r))) /\
  (forall a w w1 w2 w' r Ht Hv traw iraw,
     vision_dispatch self a w = (Ok (Some (TensorObj iraw)), w1) ->
     text_encode self a w1 = (Ok traw, w2) ->
     wf3 B Lt Ht traw -> wf3 B Li Hv iraw ->
     forward self a w = (Ok r, w') ->
     exists D', wf3 B Lt D' (text_embeds (fields_of r)) /\
                wf3 B Li D' (image_embeds (fields_of r))).
Proof.
  intros Lt1 Li1 Wt Wi Hsp. split; [|split].
  - eexists. split; [exact (embeddings_ok Lt1 Li1 Wt Wi)|].
    split; [now apply cat_wf|]. exact (cat_split Wt Wi).
  - intros kw w r w' H. eapply fusion_shape in H; [exact H|exact Wt|exact Wi|exact Hsp].
  - intros a w w1 w2 w' r Ht Hv traw iraw Hvis Htxt Wtr Wir H.
    eexists. eapply forward_shapes; eassumption.
Qed.

(** The logits and the loss of a returning forward call. *)
Lemma forward_logits (self : AdaptorT) (a : ArgsT) (w w' : world W) (r : forward_result) :
  forward self a w = (Ok r, w') ->
  logits_per_image (fields_of r) = transpose (logits_per_text (fields_of r)) /\
  loss (fields_of r) =
    (if truthy (return_loss a)
     then Some (clip_loss cross_entropy (logits_per_text (fields_of r)))
     else None) /\
  length (image_embeds (fields_of r)) = length (text_embeds (fields_of r)) /\
  exists m,
    wf2 (length (text_embeds (fields_of r))) m (logits_per_text (fields_of r)) /\
    (1 <= size2 (image_embeds (fields_of r)) ->
     m = length (text_embeds (fields_of r))).
Proof.
  intros H.
  apply forward_ok in H as (iraw & traw & w1 & w2 & _ & _ & H).
  apply score_ok in H
    as (image_arg & ie & te & outputs & fused & t0 & i0 & sim
        & _ & _ & _ & _ & Ht0 & Hi0 & Hmm & Hfields).
  rewrite Hfields. simpl. split; [reflexivity|]. split; [reflexivity|].
  split.
  { rewrite !tdiv_norm_rows. unfold slice_from, slice_to. now rewrite !length_map. }
  apply matmul_value in Hmm as [-> _].
  exists (size1 (transpose i0)). split.
  - apply mul_scalar_wf. rewrite <- (select0_length _ Ht0).
    apply rows_of_map_wf. intros row. now rewrite length_map, transpose_length.
  - intros Hd. rewrite <- (select0_size1 _ Hi0) in Hd.
    rewrite transpose_size1 by exact Hd.
    rewrite (select0_length _ Hi0), !tdiv_norm_rows.
    unfold slice_from, slice_to. now rewrite !length_map.
Qed.

(** The two summaries of a returning forward call and the
    similarity the logits are made of. *)
Lemma forward_summaries (self : AdaptorT) (a : ArgsT) (w w' : world W)
    (r : forward_result) :
  forward self a w = (Ok r, w') ->
  exists t0 i0 sim,
    select0 (text_embeds (fields_of r)) = Ok t0 /\
    select0 (image_embeds (fields_of r)) = Ok i0 /\
    matmul t0 (transpose i0) = Ok sim /\
    logits_per_text (fields_of r) = mul_scalar sim (fexp (logit_scale self)).
Proof.
  intros H.
  apply forward_ok in H as (iraw & traw & w1 & w2 & _ & _ & H).
  apply score_ok in H
    as (image_arg & ie & te & outputs & fused & t0 & i0 & sim
        & _ & _ & _ & _ & Ht0 & Hi0 & Hmm & Hfields).
  exists t0, i0, sim. rewrite Hfields. simpl. auto.
Qed.

(** With the summaries in each other's place, the logits are the
    transposed logits. *)
Lemma swapped_logits (t0 i0 sim : tensor2 (F:=F)) (s : F) (b d : nat) :
  (forall x y : F, fmul x y = fmul y x) ->
  wf2 b d t0 -> wf2 b d i0 -> 1 <= b -> 1 <= d ->
  matmul t0 (transpose i0) = Ok sim ->
  exists swapped,
    matmul i0 (transpose t0) = Ok swapped /\
    mul_scalar swapped s = transpose (mul_scalar sim s).
Proof.
  intros Hcomm Wt Wi B1 D1 Hmm.
  rewrite (matmul_transpose_value Wt Wi B1 B1 D1) in Hmm. inversion Hmm; subst sim.
  eexists. split; [exact (matmul_transpose_value Wi Wt B1 B1 D1)|].
  assert (Hg : wf2 b b (map (fun row => map (dot row) i0) t0)).
  { destruct Wt as [Hn _], Wi as [Hm _]. rewrite <- Hn at 1. rewrite <- Hm.
    apply rows_of_map_wf. intros x. apply length_map. }
  rewrite (transpose_mul_scalar _ Hg). f_equal. symmetry.
  now apply (@similarity_swap _ _ b b d).
Qed.

(** C5.  Whenever a forward call returns, for any batch size, the
    returned logits_per_image is the transpose of the returned
    logits_per_text, computed from it and from nothing else: the
    text logits are a rectangular matrix with one row per batch
    element, and the entry (j, i) of logits_per_image is the very
    entry (i, j) of logits_per_text. *)
Theorem logits_per_image_is_transpose (self : AdaptorT) (a : ArgsT)
    (w w' : world W) (r : forward_result) :
  forward self a w = (Ok r, w') ->
  logits_per_image (fields_of r) = transpose (logits_per_text (fields_of r)) /\
  exists m,
    wf2 (length (text_embeds (fields_of r))) m (logits_per_text (fields_of r)) /\
    forall i j d,
      i < length (text_embeds (fields_of r)) -> j < m ->
      nth i (nth j (logits_per_image (fields_of r)) []) d =
      nth j (nth i (logits_per_text (fields_of r)) []) d.
Proof.
  intros H. apply forward_logits in H as (Ht & _ & _ & m & Wf & _).
  split; [exact Ht|]. exists m. split; [exact Wf|].
  intros i j d Hi Hj. rewrite Ht. now apply (transpose_nth d Wf).
Qed.

(** C6.  With return_loss true, the loss a forward call returns is
    the cross-entropy of logits_per_text against the identity target
    0..B-1 plus the cross-entropy of logits_per_image against the same
    target, halved.  It is symmetric: recomputed on the transposed
    logits the loss is the same value, exactly, as soon as adding two
    floats does not depend on their order; and the transposed logits
    are what the code computes with the text and image summaries in
    each other's place, as soon as multiplying two floats does not
    depend on their order either, so that the loss recomputed after
    the swap is the loss returned.  B is the batch size and the
    embeddings are at least one wide. *)
Theorem loss_is_symmetric_cross_entropy (self : AdaptorT) (a : ArgsT)
    (w w' : world W) (r : forward_result) :
  (forall x y : F, fadd x y = fadd y x) ->
  truthy (return_loss a) = true ->
  1 <= size2 (image_embeds (fields_of r)) ->
  forward self a w = (Ok r, w') ->
  loss (fields_of r) =
    Some (fdiv (fadd (cross_entropy (logits_per_text (fields_of r))
                        (seq 0 (length (text_embeds (fields_of r)))))
                     (cross_entropy (logits_per_image (fields_of r))
                        (seq 0 (length (text_embeds (fields_of r))))))
               ftwo) /\
  clip_loss cross_entropy (logits_per_image (fields_of r)) =
  clip_loss cross_entropy (logits_per_text (fields_of r)) /\
  (forall B Lt Li D,
     (forall x y : F, fmul x y = fmul y x) ->
     wf3 B Lt D (text_embeds (fields_of r)) ->
     wf3 B Li D (image_embeds (fields_of r)) ->
     exists text_summary image_summary swapped,
       select0 (text_embeds (fields_of r)) = Ok text_summary /\
       select0 (image_embeds (fields_of r)) = Ok image_summary /\
       matmul image_summary (transpose text_summary) = Ok swapped /\
       mul_scalar swapped (fexp (logit_scale self)) = logits_per_image (fields_of r) /\
       Some (clip_loss cross_entropy (mul_scalar swapped (fexp (logit_scale self)))) =
       loss (fields_of r)).
Proof.
  intros Hcomm Hloss Hd H.
  pose proof (forward_summaries _ _ _ H) as (t0 & i0 & sim & Ht0 & Hi0 & Hmm & Hlpt).
  apply forward_logits in H as (Ht & Hl & Hlen & m & Wf & Hm).
  specialize (Hm Hd). subst m.
  set (B := length (text_embeds (fields_of r))) in *.
  assert (B1 : 1 <= B).
  { rewrite <- Hlen.
    unfold size2 in Hd. destruct (image_embeds (fields_of r)); simpl in *; tlia. }
  assert (Hsym : clip_loss cross_entropy (transpose (logits_per_text (fields_of r))) =
                 clip_loss cross_entropy (logits_per_text (fields_of r))).
  { unfold clip_loss, contrastive_loss.
    rewrite (transpose_involutive Wf B1). now rewrite Hcomm. }
  split; [|split].
  - rewrite Hl, Hloss, Ht. unfold clip_loss, contrastive_loss.
    rewrite transpose_length, (wf2_size1 Wf B1).
    destruct Wf as [Hr _]. now rewrite Hr.
  - now rewrite Ht.
  - intros B' Lt Li D Hmul Wte Wie.
    destruct (wf3_wide Wie Hd) as (B1' & _ & D1).
    destruct (swapped_logits (fexp (logit_scale self)) Hmul
                (select0_wf Wte Ht0) (select0_wf Wie Hi0) B1' D1 Hmm)
      as (swapped & Hsw & Hval).
    exists t0, i0, swapped. repeat split; try assumption.
    + now rewrite Ht, Hlpt.
    + rewrite Hl, Hloss, Hval, <- Hlpt. now rewrite Hsym.
Qed.

(** C8.  Running AdaptorModule.forward with an explicit attention
    mask that is all ones and has the shape of the default one (batch
    by sequence length, plus the length of the cached keys if any are
    passed) is running it with the mask left out: same outcome, same
    calls. *)
Theorem explicit_all_ones_mask_is_default
    (self : AdaptorModule W HeadMask ExtMask EncExtras)
    (text image : tensor3 (F:=F)) (kw : am_kwargs HeadMaskArg)
    (mask : tensor2 (F:=F)) (w : world W) :
  (forall fused n,
     embeddings text image = Ok fused ->
     match kw_past_key_values kw with
     | Some p => past_length p
     | None => Ok 0
     end = Ok n ->
     wf2 (size0 fused) (size1 fused + n) mask) ->
  Forall (Forall (eq fone)) mask ->
  module_forward self text image (with_attention_mask kw (Some mask)) w =
  module_forward self text image (with_attention_mask kw None) w.
Proof.
  intros Hshape Hones. unfold AdaptorModule_forward, bind, lift. simpl.
  destruct (embeddings text image) as [fused|e]; [|reflexivity].
  destruct (match kw_past_key_values kw with
            | Some p => past_length p
            | None => Ok 0
            end) as [n|e]; [|reflexivity].
  rewrite (all_ones_is_ones2 (Hshape fused n eq_refl eq_refl) Hones).
  reflexivity.
Qed.

Lemma module_forward_wi (self : AdaptorModule W HeadMask ExtMask EncExtras)
    (t i : tensor3 (F:=F)) (kw : am_kwargs HeadMaskArg) :
  deterministic (encoder self) -> deterministic (pooler self) ->
  world_independent (module_forward self t i kw).
Proof.
  intros De Dp. unfold AdaptorModule_forward.
  repeat (apply bind_wi; [first [apply lift_wi | now apply invoke_wi]|intros ?]; cbv zeta).
  destruct (negb _); apply ret_wi.
Qed.

Lemma forward_wi (self : AdaptorT) (a : ArgsT) :
  deterministic (vision_model self) ->
  deterministic (tm_forward (text_model self)) ->
  deterministic (encoder (adaptor_module self)) ->
  deterministic (pooler (adaptor_module self)) ->
  world_independent (forward self a).
Proof.
  intros Dv Dt De Dp. unfold Adaptor_forward.
  apply bind_wi; [|intros iraw; apply bind_wi; [|intros traw]].
  - unfold vision_dispatch.
    repeat match goal with |- world_independent (if ?b then _ else _) => destruct b end;
      repeat (apply bind_wi;
              [first [apply lift_wi | now apply invoke_wi | apply print_wi]|intros ?]);
      apply ret_wi.
  - unfold text_encode. apply bind_wi; [now apply invoke_wi|intros ?; apply lift_wi].
  - unfold fuse_and_score.
    repeat (apply bind_wi;
            [first [apply lift_wi | now apply module_forward_wi]|intros ?]; cbv zeta).
    destruct (negb _); apply ret_wi.
Qed.

(** C9.  Two forward calls with the same arguments and no parameter
    update in between return the same outcome when the modules the
    Adaptor calls (the two encoders, the encoder stack and the
    pooler) are functions of their arguments, as they are in eval
    mode, where dropout is off.  Then the outcome of Adaptor.forward
    is a function of the Adaptor and of its arguments alone: it is
    the same in any two states of the runtime, and a second call, run
    in the state the first one left, returns what the first returned.
    Adaptor.forward and AdaptorModule.forward draw no random number
    of their own and the Adaptor record is not changed by a call.
    The condition cannot be dropped: AdaptorModule.__init__ builds
    its BertEncoder from a default BertConfig, with dropout, and a
    new module is in training mode. *)
Theorem forward_is_deterministic (self : AdaptorT) (a : ArgsT) :
  deterministic (vision_model self) ->
  deterministic (tm_forward (text_model self)) ->
  deterministic (encoder (adaptor_module self)) ->
  deterministic (pooler (adaptor_module self)) ->
  (forall w w', fst (forward self a w) = fst (forward self a w')) /\
  (forall w, fst (forward self a (snd (forward self a w))) = fst (forward self a w)).
Proof.
  intros Dv Dt De Dp.
  pose proof (@forward_wi self a Dv Dt De Dp) as Hwi.
  split; [exact Hwi|]. intros w. apply Hwi.
Qed.

Lemma text_encode_log (self : AdaptorT) (a : ArgsT) (w w' : world W)
    (r : outcome (tensor3 (F:=F))) :
  text_encode self a w = (r, w') -> log w' = log w ++ [EvTextModel].
Proof.
  unfold text_encode, bind. intros H.
  match type of H with context [invoke ?ev ?f ?x w] =>
    destruct (invoke ev f x w) as [[o|e] w1] eqn:E end;
    apply invoke_log in E; unfold lift in H; inversion H; subst; exact E.
Qed.

Lemma vision_dispatch_log (self : AdaptorT) (a : ArgsT) (w w' : world W) (o : pyobj) :
  vision_dispatch self a w = (Ok (Some o), w') -> log w' = log w ++ [EvVisionModel].
Proof.
  unfold vision_dispatch, bind, lift, ret, print. intros H.
  repeat match type of H with context [if ?b then _ else _] => destruct b end;
    try discriminate;
    match type of H with context [invoke ?ev ?f ?x w] =>
      destruct (invoke ev f x w) as [[vo|e] w1] eqn:E end;
    apply invoke_log in E; try discriminate;
    repeat match type of H with context [match ?c with Ok _ => _ | Raise _ => _ end] =>
      destruct c end;
    inversion H; subst; exact E.
Qed.

(** The fusion module given sequences of different batch sizes: the
    concatenation of its first statement raises, and nothing else
    has run. *)
Lemma module_forward_batch_mismatch (self : AdaptorModule W HeadMask ExtMask EncExtras)
    (t i : tensor3 (F:=F)) (kw : am_kwargs HeadMaskArg) (w : world W) :
  length t <> length i ->
  module_forward self t i kw w =
  (Raise (RuntimeError "Sizes of tensors must match except in dimension 1"), w).
Proof.
  intros Hne. unfold AdaptorModule_forward, bind, lift, embeddings, cat_dim1, size0.
  apply Nat.eqb_neq in Hne. now rewrite Hne.
Qed.

(** C3, as the code has it.  When the text encoder and the vision
    encoder returned sequences of different batch sizes, the forward
    call fails with a RuntimeError of torch and never with a
    BatchSizeMismatch, in the state the text encoder left: after the
    two encoders nothing external has run, the encoder stack in
    particular was not called.  When both sequences have the width
    their projection head expects, the error is the one torch.cat
    raises in the first statement of AdaptorModule.forward. *)
Theorem batch_mismatch_fails_at_concatenation (self : AdaptorT) (a : ArgsT)
    (w w1 w2 : world W) (traw iraw : tensor3 (F:=F)) :
  vision_dispatch self a w = (Ok (Some (TensorObj iraw)), w1) ->
  text_encode self a w1 = (Ok traw, w2) ->
  length traw <> length iraw ->
  (exists msg, forward self a w = (Raise (RuntimeError msg), w2)) /\
  log w2 = log w ++ [EvVisionModel; EvTextModel] /\
  (size2 traw = in_features (text_projection (projection self)) ->
   size2 iraw = in_features (visual_projection (projection self)) ->
   forward self a w =
   (Raise (RuntimeError "Sizes of tensors must match except in dimension 1"), w2)).
Proof.
  intros Hv Ht Hne.
  assert (Hfwd : forward self a w =
                 fuse_and_score get_extended_attention_mask invert_attention_mask
                   get_head_mask cross_entropy self a (Some (TensorObj iraw)) traw w2).
  { unfold Adaptor_forward, bind. now rewrite Hv, Ht. }
  rewrite Hfwd. clear Hfwd.
  assert (Hmis : forall (p : tensor3 (F:=F) * tensor3 (F:=F)),
             Project_forward (projection self) (TensorObj traw) (TensorObj iraw) = Ok p ->
             length (snd p) <> length (fst p)).
  { intros [ie te] Hp.
    apply Project_forward_tensors in Hp as [-> ->]. simpl.
    unfold project_normalize. now rewrite !length_map. }
  split; [|split].
  - unfold fuse_and_score, bind, lift. simpl.
    destruct (Project_forward (projection self) (TensorObj traw) (TensorObj iraw))
      as [p|e] eqn:Hp.
    + rewrite module_forward_batch_mismatch by exact (Hmis p eq_refl). eauto.
    + unfold Project_forward in Hp. simpl in Hp.
      destruct (size2 traw =? in_features (text_projection (projection self)))%nat;
        simpl in Hp; [|inversion Hp; eauto].
      destruct (size2 iraw =? in_features (visual_projection (projection self)))%nat;
        simpl in Hp; [discriminate|inversion Hp; eauto].
  - apply text_encode_log in Ht. apply vision_dispatch_log in Hv.
    rewrite Ht, Hv, <- app_assoc. reflexivity.
  - intros Wt Wi. unfold fuse_and_score, bind, lift. simpl.
    destruct (Project_forward (projection self) (TensorObj traw) (TensorObj iraw))
      as [p|e] eqn:Hp.
    + now rewrite module_forward_batch_mismatch by exact (Hmis p eq_refl).
    + unfold Project_forward in Hp. simpl in Hp.
      rewrite Wt, Wi, !Nat.eqb_refl in Hp. discriminate.
Qed.

(** C1, at the code.  With a tag that is none of 'huggingface',
    'timm' and 'ae', the forward call prints the line
    "<tag> is not supported." and goes on: it runs the text encoder,
    and when that returns a last_hidden_state the call ends in the
    UnboundLocalError of the local image_embeds_raw, which no branch
    assigned; an error of the text encoder is passed on.  No
    UnsupportedBackbone error is raised. *)
Theorem unsupported_tag_prints_and_continues (self : AdaptorT) (a : ArgsT) (w : world W) :
  vision_model_type self <> "huggingface" ->
  vision_model_type self <> "timm" ->
  vision_model_type self <> "ae" ->
  forward self a w =
  match text_encode self a
          {| log := log w ++ [EvPrint (String.append (vision_model_type self)
                                                     " is not supported.")];
             ext := ext w |} with
  | (Ok _, w2) => (Raise (UnboundLocalError "image_embeds_raw"), w2)
  | (Raise e, w2) => (Raise e, w2)
  end.
Proof.
  intros H1 H2 H3.
  apply String.eqb_neq in H1, H2, H3.
  unfold Adaptor_forward, vision_dispatch. rewrite H1, H2, H3.
  unfold bind, print, ret. cbv beta iota zeta.
  destruct (text_encode self a _) as [[traw|e] w2]; reflexivity.
Qed.

(** C4, as the code has it.  The projection heads and the
    renormalisation after the fusion divide every vector by its plain
    2-norm, the square root of the sum of its squares: nothing is
    added to the denominator and nothing guards it.  For a vector of
    zeros the denominator is exactly zero, whenever multiplying and
    adding zeros and taking the square root of zero give zero, as
    they do in IEEE arithmetic. *)
Theorem normalization_divides_by_plain_norm :
  (forall (self : Project) (x y : pyobj) (ie te : tensor3 (F:=F)),
     Project_forward self x y = Ok (ie, te) ->
     exists pt pi,
       Linear_forward (text_projection self) x = Ok pt /\
       Linear_forward (visual_projection self) y = Ok pi /\
       te = map (map (fun v => map (fun c => fdiv c (l2norm v)) v)) pt /\
       ie = map (map (fun v => map (fun c => fdiv c (l2norm v)) v)) pi) /\
  (forall (self : AdaptorT) (a : ArgsT) (w w' : world W) (r : forward_result),
     forward self a w = (Ok r, w') ->
     exists fused n,
       text_embeds (fields_of r) =
         map (map (fun v => map (fun c => fdiv c (l2norm v)) v)) (slice_to n fused) /\
       image_embeds (fields_of r) =
         map (map (fun v => map (fun c => fdiv c (l2norm v)) v)) (slice_from n fused)) /\
  (fmul fzero fzero = fzero -> fadd fzero fzero = fzero -> fsqrt fzero = fzero ->
   forall n, l2norm (repeat fzero n) = fzero).
Proof.
  split; [|split].
  - intros self x y ie te H. unfold Project_forward in H.
    destruct (Linear_forward (text_projection self) x) as [pt|e]; [|discriminate].
    destruct (Linear_forward (visual_projection self) y) as [pi|e]; [|discriminate].
    simpl in H. inversion H. exists pt, pi. now rewrite !tdiv_norm.
  - intros self a w w' r H.
    apply forward_ok in H as (iraw & traw & w1 & w2 & _ & _ & H).
    apply score_ok in H
      as (image_arg & ie & te & outputs & fused & t0 & i0 & sim
          & _ & _ & _ & _ & _ & _ & _ & Hfields).
    exists fused, (size1 te). rewrite Hfields. simpl. now rewrite !tdiv_norm.
  - intros Hm Ha Hs n. unfold l2norm. now rewrite sum_squares_zeros.
Qed.

End AdaptorFacts.

(** ** Construction *)
Section InitFacts.
Variable W : Type.
Context {F : Type} {SF : Scalar F}.
Variables HeadMask ExtMask EncExtras LongTensor MaskTensor PixelValues : Type.
Variable nn_Linear : callable W (option nat * nat * bool) (Linear (F:=F)).
Variable BertEncoder :
  callable W BertConfig
    (callable W (encoder_args (F:=F) HeadMask ExtMask) (encoder_outputs (F:=F) EncExtras)).
Variable BertPooler : callable W BertConfig (callable W (tensor3 (F:=F)) (tensor2 (F:=F))).

(** C2, at the code.  The assertion of Adaptor.__init__ is its last
    statement and exempts the tag 'transformer', not 'huggingface':
    with vision_output_dim omitted, construction with any other tag,
    'huggingface' included, never yields an Adaptor.  The projection
    heads are built first, with in_features None for the visual one,
    then the fusion module; an error of either constructor is passed
    on, and when both succeed the call ends in the AssertionError
    "Please provide vision_output_dim for non transformer vision
    models".  No ConfigurationError is raised. *)
Theorem init_without_dim_fails_unless_tag_transformer
    (text : TextModel W LongTensor MaskTensor)
    (vision : callable W (vision_args PixelValues) (pyobj (F:=F)))
    (cfg : option BertConfig) (tag : string) (scale : F) (pd : nat) (w : world W) :
  tag <> "transformer" ->
  Adaptor_init nn_Linear BertEncoder BertPooler text vision cfg tag None scale pd w =
  match Project_init nn_Linear (tm_hidden_size text) None pd w with
  | (Raise e, w1) => (Raise e, w1)
  | (Ok _, w1) =>
      match AdaptorModule_init BertEncoder BertPooler cfg 2 w1 with
      | (Raise e, w2) => (Raise e, w2)
      | (Ok _, w2) =>
          (Raise (AssertionError
                    "Please provide vision_output_dim for non transformer vision models"),
           w2)
      end
  end.
Proof.
  intros Htag. apply String.eqb_neq in Htag.
  unfold Adaptor_init. rewrite Htag. unfold bind. simpl.
  destruct (Project_init nn_Linear (tm_hidden_size text) None pd w) as [[p|e] w1];
    [|reflexivity].
  destruct (AdaptorModule_init BertEncoder BertPooler cfg 2 w1) as [[m|e] w2];
    reflexivity.
Qed.

End InitFacts.

(** ** Runs in binary32 *)

(** addition of binary32 numbers does not depend on the order *)
Lemma add_comm32 (x y : Binary32.float32) : Binary32.add x y = Binary32.add y x.
Proof.
  unfold Binary32.add, SFadd.
  destruct x as [sx|sx| |sx mx ex], y as [sy|sy| |sy my ey];
    try reflexivity; try (destruct sx, sy; reflexivity).
  cbv zeta. now rewrite Z.min_comm, Z.add_comm.
Qed.

Lemma enc_shape_preserving : shape_preserving Doubles.enc.
Proof. intros a s o s' H b l h Wf. inversion H. exact Wf. Qed.

Lemma doubles_deterministic :
  deterministic Doubles.vision_ae /\ deterministic Doubles.text_enc /\
  deterministic Doubles.enc /\ deterministic Doubles.pool.
Proof.
  repeat split; intros x s s'; try reflexivity.
  - unfold Doubles.vision_ae, Doubles.with_pixels. now destruct (va_pixel_values x).
  - unfold Doubles.text_enc. now destruct (ta_input_ids x).
Qed.

(** C1, run: the tag 'resnet'.  The line is printed, the text
    encoder still runs, and the call ends in UnboundLocalError. *)
Lemma unsupported_tag_run :
  "resnet" <> "huggingface" /\ "resnet" <> "timm" /\ "resnet" <> "ae" /\
  Doubles.forward (Doubles.adaptor Doubles.vision_ae "resnet")
    (Doubles.args [[1; 2; 3]; [2; 2; 2]] Doubles.px2 true) Doubles.w0
  = (Raise (UnboundLocalError "image_embeds_raw"),
     {| log := [EvPrint "resnet is not supported."; EvTextModel]; ext := 0 |}).
Proof.
  repeat (split; [discriminate|]).
  unfold Doubles.forward.
  rewrite unsupported_tag_prints_and_continues by discriminate.
  reflexivity.
Defined.

(** C2, run: the default tag 'huggingface' with vision_output_dim
    omitted and constructors that all succeed.  The four sub-modules
    are built, then the assertion fails. *)
Lemma init_huggingface_without_dim_run :
  "huggingface" <> "transformer" /\
  Doubles.init Doubles.new_linear_lax Doubles.new_encoder Doubles.new_pooler
    Doubles.text Doubles.vision_hf None "huggingface" None Binary32.one 2 Doubles.w0
  = (Raise (AssertionError
              "Please provide vision_output_dim for non transformer vision models"),
     {| log := [EvNewLinear None 2; EvNewLinear (Some 2) 2; EvNewEncoder; EvNewPooler];
        ext := 6 |}).
Proof.
  split; [discriminate|].
  unfold Doubles.init.
  rewrite init_without_dim_fails_unless_tag_transformer by discriminate.
  reflexivity.
Defined.

(** The same construction with the [nn.Linear] of torch, which
    refuses [in_features=None]: the call ends in its TypeError before
    the assertion is reached; and the tag 'transformer' passes the
    assertion. *)
Example init_without_dim_other_runs :
  Doubles.init Doubles.new_linear Doubles.new_encoder Doubles.new_pooler
    Doubles.text Doubles.vision_hf None "huggingface" None Binary32.one 2 Doubles.w0
  = (Raise (TypeError "empty() received an invalid combination of arguments"),
     {| log := [EvNewLinear None 2]; ext := 0 |}) /\
  is_ok (fst (Doubles.init Doubles.new_linear_lax Doubles.new_encoder Doubles.new_pooler
                Doubles.text Doubles.vision_hf None "transformer" None Binary32.one 2
                Doubles.w0)) = true /\
  is_ok (fst (Doubles.init Doubles.new_linear Doubles.new_encoder Doubles.new_pooler
                Doubles.text Doubles.vision_timm None "timm" (Some 2) Binary32.one 2
                Doubles.w0)) = true.
Proof. repeat split; reflexivity. Qed.

(** C3, counterexample: two texts, three images.  The call ends in
    the RuntimeError of torch.cat, not in a BatchSizeMismatch; the
    two encoders have run, the encoder stack has not. *)
Lemma batch_mismatch_run :
  Doubles.forward (Doubles.adaptor Doubles.vision_ae "ae")
    (Doubles.args [[1; 2; 3]; [2; 2; 2]] Doubles.px3 true) Doubles.w0
  = (Raise (RuntimeError "Sizes of tensors must match except in dimension 1"),
     {| log := [EvVisionModel; EvTextModel]; ext := 0 |}).
Proof. reflexivity. Qed.

(** C3, an instance of the theorem on the same input. *)
Lemma batch_mismatch_fails_at_concatenation_run :
  exists msg,
    Doubles.forward (Doubles.adaptor Doubles.vision_ae "ae")
      (Doubles.args [[1; 2; 3]; [2; 2; 2]] Doubles.px3 true) Doubles.w0
    = (Raise (RuntimeError msg), {| log := [EvVisionModel; EvTextModel]; ext := 0 |}).
Proof.
  unfold Doubles.forward.
  refine (proj1 (@batch_mismatch_fails_at_concatenation _ _ _ _ _ _ _ _ _ _ _ _ _ _
                   (Doubles.adaptor Doubles.vision_ae "ae")
                   (Doubles.args [[1; 2; 3]; [2; 2; 2]] Doubles.px3 true)
                   Doubles.w0 {| log := [EvVisionModel]; ext := 0 |}
                   {| log := [EvVisionModel; EvTextModel]; ext := 0 |}
                   (map (map Doubles.embed_token) [[1; 2; 3]; [2; 2; 2]])
                   (permute_021 (flatten_from2 Doubles.px3)) _ _ _)).
  - reflexivity.
  - reflexivity.
  - simpl. discriminate.
Defined.

(** C4, counterexample: a vector of zeros.  The denominator of the
    normalisation is exactly zero, in the projection heads (whose
    results are NaN throughout) and in the renormalisation after the
    fusion, here behind an encoder that returned zeros. *)
Lemma zero_vector_has_zero_denominator :
  norm_keepdim [[[Binary32.zero; Binary32.zero]]] = [[[Binary32.zero]]] /\
  Project_forward Doubles.project2
    (TensorObj [[[Binary32.zero; Binary32.zero]]])
    (TensorObj [[[Binary32.zero; Binary32.zero]]])
  = Ok ([[[Binary32.nan; Binary32.nan]]], [[[Binary32.nan; Binary32.nan]]]) /\
  Doubles.fusion_forward Doubles.fusion_dropout
    [[[Binary32.one; Binary32.zero]]] [[[Binary32.zero; Binary32.one]]]
    (am_defaults unit) {| log := []; ext := 1 |}
  = (Ok (AMOutput [[[Binary32.zero; Binary32.zero]; [Binary32.zero; Binary32.zero]]]
                  [[Binary32.zero; Binary32.zero]] tt),
     {| log := [EvEncoder; EvPooler]; ext := 2 |}) /\
  option_map (fun r => text_embeds (fields_of r))
    (match fst (Doubles.forward Doubles.adaptor_dropout
                  (Doubles.args [[1; 2; 3]; [2; 2; 2]] Doubles.px2 true)
                  {| log := []; ext := 1 |}) with
     | Ok r => Some r
     | Raise _ => None
     end)
  = Some (full3 2 3 2 Binary32.nan).
Proof. repeat split; reflexivity. Qed.

(** C4, an instance of the theorem: the norm of three zeros in
    binary32. *)
Lemma normalization_divides_by_plain_norm_run :
  l2norm (repeat Binary32.zero 3) = Binary32.zero.
Proof.
  refine (proj2 (proj2 (@normalization_divides_by_plain_norm nat Binary32.float32 _
                          unit (list (option unit)) Doubles.t4 unit
                          Doubles.ext_mask Doubles.inv_mask Doubles.head_mask Doubles.ce
                          (list (list nat)) (list (list nat)) Doubles.t4)) _ _ _ 3);
    reflexivity.
Defined.

(** C5, an instance: two texts of three tokens, two images. *)
Lemma logits_per_image_is_transpose_run :
  exists r w',
    Doubles.forward (Doubles.adaptor Doubles.vision_ae "ae")
      (Doubles.args [[1; 2; 3]; [2; 2; 2]] Doubles.px2 true) Doubles.w0 = (Ok r, w') /\
    length (logits_per_text (fields_of r)) = 2 /\
    logits_per_image (fields_of r) = transpose (logits_per_text (fields_of r)).
Proof.
  destruct (Doubles.forward (Doubles.adaptor Doubles.vision_ae "ae")
              (Doubles.args [[1; 2; 3]; [2; 2; 2]] Doubles.px2 true) Doubles.w0)
    as [[r|e] w'] eqn:E.
  - exists r, w'. split; [reflexivity|]. split.
    + vm_compute in E. inversion E. reflexivity.
    + apply logits_per_image_is_transpose in E. exact (proj1 E).
  - vm_compute in E. discriminate.
Defined.

(** C6, an instance: the same call, with return_loss true. *)
Lemma loss_is_symmetric_cross_entropy_run :
  exists r w',
    Doubles.forward (Doubles.adaptor Doubles.vision_ae "ae")
      (Doubles.args [[1; 2; 3]; [2; 2; 2]] Doubles.px2 true) Doubles.w0 = (Ok r, w') /\
    loss (fields_of r) =
      Some (Binary32.div
              (Binary32.add (Doubles.ce (logits_per_text (fields_of r)) [0; 1])
                            (Doubles.ce (logits_per_image (fields_of r)) [0; 1]))
              Binary32.two) /\
    clip_loss Doubles.ce (logits_per_image (fields_of r)) =
    clip_loss Doubles.ce (logits_per_text (fields_of r)).
Proof.
  destruct (Doubles.forward (Doubles.adaptor Doubles.vision_ae "ae")
              (Doubles.args [[1; 2; 3]; [2; 2; 2]] Doubles.px2 true) Doubles.w0)
    as [[r|e] w'] eqn:E.
  - exists r, w'. split; [reflexivity|].
    assert (Hd : 1 <= size2 (image_embeds (fields_of r)) /\
                 length (text_embeds (fields_of r)) = 2).
    { vm_compute in E. inversion E. split; [apply le_S, le_n|reflexivity]. }
    destruct Hd as [Hd Hlen].
    apply loss_is_symmetric_cross_entropy in E;
      [|exact add_comm32|reflexivity|exact Hd].
    destruct E as (Hl & Hs & _).
    rewrite Hlen in Hl. split; [exact Hl|exact Hs].
  - vm_compute in E. discriminate.
Defined.

(** C7, an instance: B = 2, Lt = 3, Li = 2, D = 2, behind the encoder
    that returns its input. *)
Lemma fusion_preserves_length_and_split_run :
  exists fused,
    embeddings (map (map Doubles.embed_token) [[1; 2; 3]; [2; 2; 2]])
               (map (map Doubles.embed_token) [[4; 5]; [7; 8]]) = Ok fused /\
    wf3 2 (3 + 2) 2 fused /\
    slice_to 3 fused = map (map Doubles.embed_token) [[1; 2; 3]; [2; 2; 2]] /\
    slice_from 3 fused = map (map Doubles.embed_token) [[4; 5]; [7; 8]].
Proof.
  refine (proj1 (@fusion_preserves_length_and_split nat Binary32.float32 _
                   unit (list (option unit)) Doubles.t4 unit
                   Doubles.ext_mask Doubles.inv_mask Doubles.head_mask Doubles.ce
                   (list (list nat)) (list (list nat)) Doubles.t4
                   (Doubles.adaptor Doubles.vision_ae "ae")
                   (map (map Doubles.embed_token) [[1; 2; 3]; [2; 2; 2]])
                   (map (map Doubles.embed_token) [[4; 5]; [7; 8]])
                   2 3 2 2 _ _ _ _ enc_shape_preserving)).
  - apply le_S, le_S, le_n.
  - apply le_S, le_n.
  - repeat constructor.
  - repeat constructor.
Defined.

(** C8, an instance: an explicit mask of ones of shape (2, 5). *)
Lemma explicit_all_ones_mask_is_default_run :
  Doubles.fusion_forward Doubles.fusion
    (map (map Doubles.embed_token) [[1; 2; 3]; [2; 2; 2]])
    (map (map Doubles.embed_token) [[4; 5]; [7; 8]])
    (with_attention_mask (am_defaults unit)
       (Some [[Binary32.one; Binary32.one; Binary32.one; Binary32.one; Binary32.one];
              [Binary32.one; Binary32.one; Binary32.one; Binary32.one; Binary32.one]]))
    Doubles.w0
  = Doubles.fusion_forward Doubles.fusion
      (map (map Doubles.embed_token) [[1; 2; 3]; [2; 2; 2]])
      (map (map Doubles.embed_token) [[4; 5]; [7; 8]])
      (with_attention_mask (am_defaults unit) None)
      Doubles.w0.
Proof.
  unfold Doubles.fusion_forward.
  apply explicit_all_ones_mask_is_default.
  - intros fused n Hf Hn. vm_compute in Hf. vm_compute in Hn.
    inversion Hf. inversion Hn. repeat constructor.
  - repeat constructor.
Defined.

(** C9, an instance: modules in eval mode, stand-ins that ignore the
    state of the runtime; a second call returns what the first
    returned. *)
Lemma forward_is_deterministic_run :
  fst (Doubles.forward (Doubles.adaptor Doubles.vision_ae "ae")
         (Doubles.args [[1; 2; 3]; [2; 2; 2]] Doubles.px2 true)
         (snd (Doubles.forward (Doubles.adaptor Doubles.vision_ae "ae")
                 (Doubles.args [[1; 2; 3]; [2; 2; 2]] Doubles.px2 true) Doubles.w0)))
  = fst (Doubles.forward (Doubles.adaptor Doubles.vision_ae "ae")
           (Doubles.args [[1; 2; 3]; [2; 2; 2]] Doubles.px2 true) Doubles.w0).
Proof.
  unfold Doubles.forward.
  refine (proj2 (@forward_is_deterministic nat Binary32.float32 _
                   unit (list (option unit)) Doubles.t4 unit
                   Doubles.ext_mask Doubles.inv_mask Doubles.head_mask Doubles.ce
                   (list (list nat)) (list (list nat)) Doubles.t4
                   (Doubles.adaptor Doubles.vision_ae "ae")
                   (Doubles.args [[1; 2; 3]; [2; 2; 2]] Doubles.px2 true)
                   _ _ _ _) Doubles.w0);
    apply doubles_deterministic.
Defined.

(** C9, counterexample: an Adaptor as Adaptor.__init__ builds it, its
    encoder stack in training mode with dropout, called twice with
    the same arguments and no parameter update in between.  Both
    calls return; the first returns the text embeddings, the second,
    whose encoder dropped the sequence, returns NaN throughout. *)
Lemma two_calls_in_training_mode_differ :
  match Doubles.init Doubles.new_linear MoreDoubles.new_encoder_training Doubles.new_pooler
          Doubles.text Doubles.vision_ae None "ae" (Some 2) Binary32.one 2 Doubles.w0 with
  | (Ok self, w1) =>
      match Doubles.forward self MoreDoubles.demo_args w1 with
      | (Ok r1, w2) =>
          match Doubles.forward self MoreDoubles.demo_args w2 with
          | (Ok r2, _) =>
              text_embeds (fields_of r1) =
                map (map Doubles.embed_token) [[1; 2; 3]; [2; 2; 2]] /\
              text_embeds (fields_of r2) = full3 2 3 2 Binary32.nan
          | (Raise _, _) => False
          end
      | (Raise _, _) => False
      end
  | (Raise _, _) => False
  end.
Proof. vm_compute. split; reflexivity. Qed.

(** * Further properties of the code *)

(** ** Project.forward *)
Section MoreProjectFacts.
Context {F : Type} {SF : Scalar F}.

(** Project.forward keeps the batch size and the sequence length of
    each of its arguments and gives both results the width of its
    head, the number of rows of the weight; the two batch sizes need
    not agree. *)
Theorem Project_forward_shapes (self : Project) (t i : tensor3 (F:=F))
    (b b' lt li ht hv : nat) :
  wf3 b lt ht t -> wf3 b' li hv i ->
  size2 t = in_features (text_projection self) ->
  size2 i = in_features (visual_projection self) ->
  exists ie te,
    Project_forward self (TensorObj t) (TensorObj i) = Ok (ie, te) /\
    wf3 b' li (length (weight (visual_projection self))) ie /\
    wf3 b lt (length (weight (text_projection self))) te.
Proof.
  intros Wt Wi Et Ei.
  destruct (Project_forward self (TensorObj t) (TensorObj i)) as [[ie te]|e] eqn:H.
  - exists ie, te. split; [reflexivity|].
    apply Project_forward_tensors in H as [-> ->].
    split; eapply project_normalize_wf; eassumption.
  - unfold Project_forward, Linear_forward in H.
    rewrite Et, Ei, !Nat.eqb_refl in H. discriminate.
Qed.

(** Project.forward looks at the text first: a text sequence of the
    wrong width ends the call in torch's RuntimeError whatever the
    image argument is, even when that is not a tensor. *)
Theorem Project_forward_checks_text_first (self : Project) (t : tensor3 (F:=F))
    (image : pyobj) :
  size2 t <> in_features (text_projection self) ->
  Project_forward self (TensorObj t) image =
  Raise (RuntimeError "mat1 and mat2 shapes cannot be multiplied").
Proof.
  intros H. apply Nat.eqb_neq in H. unfold Project_forward, Linear_forward.
  now rewrite H.
Qed.

End MoreProjectFacts.

(** An instance: two texts of three tokens and three images of two
    positions go through the heads together. *)
Lemma Project_forward_shapes_run :
  exists ie te,
    Project_forward Doubles.project2
      (TensorObj (map (map Doubles.embed_token) [[1; 2; 3]; [2; 2; 2]]))
      (TensorObj (permute_021 (flatten_from2 Doubles.px3))) = Ok (ie, te) /\
    wf3 3 2 2 ie /\ wf3 2 3 2 te.
Proof.
  apply (@Project_forward_shapes _ _ Doubles.project2 _ _ 2 3 3 2 2 2);
    try reflexivity; repeat constructor.
Defined.

(** An instance: a text of width 1 with a dict in the place of the
    image. *)
Lemma Project_forward_checks_text_first_run :
  Project_forward Doubles.project2 (TensorObj [[[Binary32.one]]]) (DictObj None) =
  Raise (RuntimeError "mat1 and mat2 shapes cannot be multiplied").
Proof.
  apply Project_forward_checks_text_first. simpl. discriminate.
Defined.

(** ** Reshaping and splitting *)
Section MoreTensorFacts.
Context {F : Type} {SF : Scalar F}.

Lemma concat_rows_length (w : nat) (rows : tensor2 (F:=F)) :
  Forall (fun v => length v = w) rows -> length (concat rows) = length rows * w.
Proof.
  induction 1 as [|v rows Hv _ IH]; simpl; [reflexivity|].
  now rewrite length_app, IH, Hv.
Qed.

Lemma concat_rows_nth (w : nat) (d : F) :
  forall (rows : tensor2 (F:=F)) (hi wi : nat),
    Forall (fun v => length v = w) rows -> hi < length rows -> wi < w ->
    nth (hi * w + wi) (concat rows) d = nth wi (nth hi rows []) d.
Proof.
  induction rows as [|v rows IH]; intros hi wi Hall Hh Hw; simpl in Hh; [lia|].
  inversion Hall as [|? ? Hv Hall']; subst. simpl concat.
  destruct hi as [|hi].
  - simpl. apply app_nth1. tlia.
  - rewrite app_nth2 by (simpl; tlia).
    replace (S hi * length v + wi - length v) with (hi * length v + wi) by (simpl; tlia).
    simpl. apply IH; [assumption|lia|assumption].
Qed.

Lemma flatten_from2_wf (b c h w : nat) (z : tensor4 (F:=F)) :
  wf4 b c h w z -> wf3 b c (h * w) (flatten_from2 z).
Proof.
  intros [Hb Hall]. unfold flatten_from2. split; [now rewrite length_map|].
  apply Forall_map. eapply Forall_impl; [|exact Hall].
  intros x [Hc Hx]. split; [now rewrite length_map|].
  apply Forall_map. eapply Forall_impl; [|exact Hx].
  intros m [Hh Hm]. now rewrite (concat_rows_length Hm), Hh.
Qed.

Lemma permute_021_wf (b c n : nat) (x : tensor3 (F:=F)) :
  wf3 b c n x -> 1 <= c -> wf3 b n c (permute_021 x).
Proof.
  intros [Hb Hall] C1. unfold permute_021. split; [now rewrite length_map|].
  apply Forall_map. eapply Forall_impl; [|exact Hall].
  intros m Hm. now apply transpose_wf.
Qed.

Lemma combine_maps {A B C : Type} (f : A -> B) (g : A -> C) (l : list A) :
  combine (map f l) (map g l) = map (fun a => (f a, g a)) l.
Proof. induction l as [|a l IH]; simpl; [reflexivity|now rewrite IH]. Qed.

(** Splitting a sequence of shape [B, L, D] at a position strictly
    inside it and concatenating the two parts again, as
    [self.embeddings] does, gives the sequence back: the split loses
    no position and repeats none. *)
Theorem split_then_concatenate (b l d n : nat) (x : tensor3 (F:=F)) :
  wf3 b l d x -> 1 <= n -> n < l ->
  embeddings (slice_to n x) (slice_from n x) = Ok x.
Proof.
  intros Wx N1 Nl.
  destruct (@slices_wf _ b n (l - n) d x) as [W1 W2].
  { now replace (n + (l - n)) with l by lia. }
  assert (L1 : 1 <= l - n) by lia.
  rewrite (embeddings_ok N1 L1 W1 W2).
  f_equal. unfold slice_to, slice_from. rewrite combine_maps, map_map. simpl.
  transitivity (map (fun m => m) x); [|apply map_id].
  apply map_ext. intros m. apply firstn_skipn.
Qed.

End MoreTensorFacts.

(** ** Adaptor.forward and AdaptorModule.forward *)
Section MoreAdaptorFacts.
Variable W : Type.
Context {F : Type} {SF : Scalar F}.
Variables HeadMaskArg HeadMask ExtMask EncExtras : Type.
Variable get_extended_attention_mask : tensor2 (F:=F) -> nat * nat -> outcome ExtMask.
Variable invert_attention_mask : tensor2 (F:=F) -> outcome ExtMask.
Variable get_head_mask : option HeadMaskArg -> nat -> outcome HeadMask.
Variable cross_entropy : tensor2 (F:=F) -> list nat -> F.
Variables LongTensor MaskTensor PixelValues : Type.

Local Abbreviation module_forward :=
  (AdaptorModule_forward (W:=W) (EncExtras:=EncExtras)
     get_extended_attention_mask invert_attention_mask get_head_mask).
Local Abbreviation score :=
  (fuse_and_score (W:=W) (EncExtras:=EncExtras)
     get_extended_attention_mask invert_attention_mask get_head_mask cross_entropy
     (LongTensor:=LongTensor) (MaskTensor:=MaskTensor) (PixelValues:=PixelValues)).
Local Abbreviation forward :=
  (Adaptor_forward (W:=W) (EncExtras:=EncExtras)
     get_extended_attention_mask invert_attention_mask get_head_mask cross_entropy
     (LongTensor:=LongTensor) (MaskTensor:=MaskTensor) (PixelValues:=PixelValues)).
Local Abbreviation AdaptorT :=
  (Adaptor W HeadMask ExtMask EncExtras LongTensor MaskTensor PixelValues).
Local Abbreviation ArgsT := (forward_args LongTensor MaskTensor PixelValues).

(** A forward call that returns has run, in this order and once
    each, the vision encoder, the text encoder, the encoder stack and
    the pooler, and has printed nothing. *)
Theorem forward_runs_four_modules_in_order (self : AdaptorT) (a : ArgsT)
    (w w' : world W) (r : forward_result) :
  forward self a w = (Ok r, w') ->
  log w' = log w ++ [EvVisionModel; EvTextModel; EvEncoder; EvPooler].
Proof.
  intros H.
  apply forward_ok in H as (iraw & traw & w1 & w2 & Hv & Ht & H).
  apply score_ok in H
    as (image_arg & ie & te & outputs & fused & t0 & i0 & sim
        & Harg & _ & Hmod & _).
  subst iraw.
  apply vision_dispatch_log in Hv. apply text_encode_log in Ht.
  apply module_forward_ok in Hmod as (? & ? & ? & ? & _ & _ & _ & _ & _ & Hlog).
  rewrite Hlog, Ht, Hv, <- !app_assoc. reflexivity.
Qed.

(** Whenever a forward call returns, on an empty batch or with
    embeddings at least one wide, the returned image and text
    sequences have the same batch size B, logits_per_text and
    logits_per_image are B x B matrices (0 x 0 on an empty batch),
    and each is the transpose of the other. *)
Theorem logits_are_square_and_mutually_transposed (self : AdaptorT) (a : ArgsT)
    (w w' : world W) (r : forward_result) :
  length (image_embeds (fields_of r)) = 0 \/
  1 <= size2 (image_embeds (fields_of r)) ->
  forward self a w = (Ok r, w') ->
  length (image_embeds (fields_of r)) = length (text_embeds (fields_of r)) /\
  wf2 (length (text_embeds (fields_of r))) (length (text_embeds (fields_of r)))
      (logits_per_text (fields_of r)) /\
  wf2 (length (text_embeds (fields_of r))) (length (text_embeds (fields_of r)))
      (logits_per_image (fields_of r)) /\
  transpose (logits_per_image (fields_of r)) = logits_per_text (fields_of r) /\
  transpose (logits_per_text (fields_of r)) = logits_per_image (fields_of r).
Proof.
  intros Hd H.
  apply forward_logits in H as (Ht & _ & Hlen & m & Wf & Hm).
  split; [exact Hlen|].
  destruct Hd as [H0|Hd].
  - (* an empty batch: no rows at all *)
    rewrite H0 in Hlen. rewrite <- Hlen in *.
    destruct Wf as [Wl _].
    destruct (logits_per_text (fields_of r)) as [|row rows]; [|discriminate Wl].
    rewrite Ht. repeat split; constructor.
  - specialize (Hm Hd). subst m.
    assert (B1 : 1 <= length (text_embeds (fields_of r))).
    { rewrite <- Hlen.
      unfold size2 in Hd. destruct (image_embeds (fields_of r)); simpl in *; tlia. }
    rewrite Ht. repeat split; try apply Wf.
    + apply (transpose_wf Wf B1).
    + apply (transpose_wf Wf B1).
    + apply (transpose_involutive Wf B1).
Qed.

(** one step of a computation, whatever its outcome *)
Ltac mcase :=
  match goal with
  | |- context [match ?c with (_, _) => _ end] =>
      lazymatch c with
      | context [match _ with _ => _ end] => fail
      | _ => destruct c as [[?|?] ?]
      end
  | |- context [match ?c with Ok _ => _ | Raise _ => _ end] =>
      lazymatch c with
      | context [match _ with _ => _ end] => fail
      | _ => destruct c
      end
  end.

(** return_loss decides whether the loss is computed and nothing
    else: with any other value of the flag a forward call runs the
    same modules, ends in the same state with the same error or the
    same logits and embeddings; and a call that returns has no loss
    exactly when return_loss is not True. *)
Theorem return_loss_only_decides_the_loss (self : AdaptorT) (a : ArgsT)
    (b : option bool) (w : world W) :
  snd (forward self (with_return_loss a b) w) = snd (forward self a w) /\
  map_outcome strip_loss (fst (forward self (with_return_loss a b) w)) =
  map_outcome strip_loss (fst (forward self a w)) /\
  (forall r w', forward self a w = (Ok r, w') ->
     (loss (fields_of r) = None <-> truthy (return_loss a) = false)).
Proof.
  assert (Hboth :
    snd (forward self (with_return_loss a b) w) = snd (forward self a w) /\
    map_outcome strip_loss (fst (forward self (with_return_loss a b) w)) =
    map_outcome strip_loss (fst (forward self a w))).
  { unfold Adaptor_forward, bind.
    change (vision_dispatch self (with_return_loss a b)) with (vision_dispatch self a).
    change (text_encode self (with_return_loss a b)) with (text_encode self a).
    destruct (vision_dispatch self a w) as [[iraw|e] w1]; [|now split].
    destruct (text_encode self a w1) as [[traw|e] w2]; [|now split].
    cbv [fuse_and_score bind lift ret with_return_loss return_loss return_dict].
    repeat (mcase; [|now split]).
    destruct (truthy b), (truthy (return_loss a)), (negb _); now split. }
  destruct Hboth as [H1 H2]. split; [exact H1|]. split; [exact H2|].
  intros r w' H. apply forward_logits in H as (_ & Hl & _).
  rewrite Hl. destruct (truthy (return_loss a)); split; congruence.
Qed.

(** Under the tag 'ae' a latent z of shape [B, C, H, W] (C >= 1)
    that the vision encoder returns under the key 'z' becomes the
    image sequence of shape [B, H*W, C]: position h*W + w of the
    sequence holds, channel by channel, the latent at row h and
    column w. *)
Theorem ae_latent_becomes_a_sequence (self : AdaptorT) (a : ArgsT) (w : world W)
    (z : tensor4 (F:=F)) (s : W) (b c h wd : nat) :
  vision_model_type self = "ae" ->
  vision_model self {| va_pixel_values := pixel_values a; va_flags := None |} (ext w)
    = (Ok (DictObj (Some z)), s) ->
  wf4 b c h wd z -> 1 <= c ->
  exists x,
    vision_dispatch self a w =
      (Ok (Some (TensorObj x)), {| log := log w ++ [EvVisionModel]; ext := s |}) /\
    wf3 b (h * wd) c x /\
    forall bi ci hi wi d,
      bi < b -> ci < c -> hi < h -> wi < wd ->
      nth ci (nth (hi * wd + wi) (nth bi x []) []) d =
      nth wi (nth hi (nth ci (nth bi z []) []) []) d.
Proof.
  intros Htag Hcall Wz C1.
  exists (permute_021 (flatten_from2 z)). split; [|split].
  - unfold vision_dispatch. rewrite Htag. simpl.
    unfold bind, invoke. rewrite Hcall. reflexivity.
  - apply permute_021_wf; [|exact C1]. now apply flatten_from2_wf.
  - intros bi ci hi wi d Hb Hc Hh Hw.
    destruct Wz as [Hlen Hall]. rewrite Forall_forall in Hall.
    assert (Wzb : wf3 c h wd (nth bi z [])) by (apply Hall, nth_In; tlia).
    unfold permute_021, flatten_from2. rewrite map_map.
    rewrite (nth_map_in _ _ []) by tlia.
    assert (Wm : wf2 c (h * wd) (map (@concat F) (nth bi z []))).
    { destruct Wzb as [Hc' Hrows]. split; [now rewrite length_map|].
      apply Forall_map. eapply Forall_impl; [|exact Hrows].
      intros m [Hm Hv]. now rewrite (concat_rows_length Hv), Hm. }
    rewrite (transpose_nth d Wm) by nia.
    destruct Wzb as [Hc' Hrows]. rewrite Forall_forall in Hrows.
    assert (Wrow : wf2 h wd (nth ci (nth bi z []) [])) by (apply Hrows, nth_In; tlia).
    rewrite (nth_map_in _ _ []) by tlia.
    destruct Wrow as [Hh' Hv]. apply concat_rows_nth; [exact Hv|tlia|exact Hw].
Qed.

(** What the vision encoder returns is read at once under
    'huggingface' and 'ae': when it has no last_hidden_state, or no
    entry 'z', the forward call ends in that error right after the
    vision encoder, and the text encoder is not run. *)
Theorem unreadable_vision_output_ends_the_call (self : AdaptorT) (a : ArgsT)
    (w : world W) (o : pyobj) (s : W) (e : exn) :
  (vision_model_type self = "huggingface" ->
   vision_model self
     {| va_pixel_values := pixel_values a;
        va_flags := Some (fa_output_attentions a, fa_output_hidden_states a,
                          return_dict a) |} (ext w) = (Ok o, s) ->
   getattr_last_hidden_state o = Raise e ->
   forward self a w = (Raise e, {| log := log w ++ [EvVisionModel]; ext := s |})) /\
  (vision_model_type self = "ae" ->
   vision_model self {| va_pixel_values := pixel_values a; va_flags := None |} (ext w)
     = (Ok o, s) ->
   getitem_z o = Raise e ->
   forward self a w = (Raise e, {| log := log w ++ [EvVisionModel]; ext := s |})).
Proof.
  split; intros Htag Hcall Hread;
    unfold Adaptor_forward, vision_dispatch; rewrite Htag; simpl;
    unfold bind, invoke, lift; rewrite Hcall, Hread; reflexivity.
Qed.

(** From Adaptor.forward the encoder stack is only ever called as a
    plain encoder (use_cache False, no cached keys, no cross-attention
    inputs, no extra outputs, return_dict True), whatever the
    configuration says: two encoder stacks that agree on such calls
    give the same forward call; and the mask utility of the
    cross-attention path, invert_attention_mask, is never used. *)
Theorem forward_calls_the_encoder_plainly (self : AdaptorT) (a : ArgsT) (w : world W)
    (enc enc' : callable W (encoder_args (F:=F) HeadMask ExtMask)
                         (encoder_outputs (F:=F) EncExtras))
    (other_invert : tensor2 (F:=F) -> outcome ExtMask) :
  (forall x s, plain_encoder_call x -> enc x s = enc' x s) ->
  forward (with_encoder self enc) a w = forward (with_encoder self enc') a w /\
  forward self a w =
  Adaptor_forward get_extended_attention_mask other_invert get_head_mask cross_entropy
    self a w.
Proof.
  intros Hagree. split.
  - unfold Adaptor_forward, bind.
    change (vision_dispatch (with_encoder self enc) a)
      with (vision_dispatch (with_encoder self enc') a).
    destruct (vision_dispatch (with_encoder self enc') a w) as [[iraw|e] w1];
      [|reflexivity].
    change (text_encode (with_encoder self enc) a w1)
      with (text_encode (with_encoder self enc') a w1).
    destruct (text_encode (with_encoder self enc') a w1) as [[traw|e] w2];
      [|reflexivity].
    cbv [fuse_and_score AdaptorModule_forward bind lift ret with_encoder
         am_defaults kw_attention_mask kw_head_mask kw_encoder_hidden_states
         kw_encoder_attention_mask kw_past_key_values kw_use_cache
         kw_output_attentions kw_output_hidden_states kw_return_dict
         or_default invoke].
    cbn [adaptor_module projection config encoder pooler].
    repeat (mcase; [|reflexivity]).
    rewrite Hagree by (repeat split; reflexivity).
    reflexivity.
  - unfold Adaptor_forward, fuse_and_score, AdaptorModule_forward. reflexivity.
Qed.

End MoreAdaptorFacts.

(** ** Adaptor.__init__ *)
Section MoreInitFacts.
Variable W : Type.
Context {F : Type} {SF : Scalar F}.
Variables HeadMask ExtMask EncExtras LongTensor MaskTensor PixelValues : Type.
Variable nn_Linear : callable W (option nat * nat * bool) (Linear (F:=F)).
Variable BertEncoder :
  callable W BertConfig
    (callable W (encoder_args (F:=F) HeadMask ExtMask) (encoder_outputs (F:=F) EncExtras)).
Variable BertPooler : callable W BertConfig (callable W (tensor3 (F:=F)) (tensor2 (F:=F))).

Local Abbreviation init :=
  (Adaptor_init (LongTensor:=LongTensor) (MaskTensor:=MaskTensor)
     (PixelValues:=PixelValues) nn_Linear BertEncoder BertPooler).

Lemma Project_init_ok (hs : nat) (dim : option nat) (pd : nat) (w w' : world W)
    (p : Project (F:=F)) :
  Project_init nn_Linear hs dim pd w = (Ok p, w') ->
  text_embed_dim p = hs /\ vision_embed_dim p = dim /\ projection_dim p = pd /\
  log w' = log w ++ [EvNewLinear dim pd; EvNewLinear (Some hs) pd].
Proof.
  unfold Project_init. intros H.
  apply bind_ok in H as (v & w1 & Hv & H).
  apply bind_ok in H as (t & w2 & Ht & H).
  apply ret_ok in H as [-> ->]. simpl.
  apply invoke_log in Hv. apply invoke_log in Ht.
  repeat split. rewrite Ht, Hv, <- app_assoc. reflexivity.
Qed.

Lemma AdaptorModule_init_ok (cfg : option BertConfig) (n : nat) (w w' : world W)
    (m : AdaptorModule W HeadMask ExtMask EncExtras) :
  AdaptorModule_init BertEncoder BertPooler cfg n w = (Ok m, w') ->
  config m = match cfg with Some c => c | None => BertConfig_new n end /\
  log w' = log w ++ [EvNewEncoder; EvNewPooler].
Proof.
  unfold AdaptorModule_init. intros H.
  apply bind_ok in H as (e & w1 & He & H).
  apply bind_ok in H as (p & w2 & Hp & H).
  apply ret_ok in H as [-> ->]. simpl.
  apply invoke_log in He. apply invoke_log in Hp.
  split; [reflexivity|]. rewrite Hp, He, <- app_assoc. reflexivity.
Qed.

(** An Adaptor that Adaptor.__init__ returned holds the tag and the
    dimension it was given, has a vision_output_dim unless its tag is
    'transformer', has a fusion module configured by the given
    config or else by BertConfig(num_hidden_layers=2), a logit scale
    of one times the initial value, and was built by exactly four
    constructor calls: the visual head (in_features the given
    dimension), the text head (in_features the hidden size of the
    text model), the encoder stack and the pooler. *)
Theorem init_postcondition
    (text : TextModel W LongTensor MaskTensor)
    (vision : callable W (vision_args PixelValues) (pyobj (F:=F)))
    (cfg : option BertConfig) (tag : string) (dim : option nat) (scale : F) (pd : nat)
    (w w' : world W)
    (a : Adaptor W HeadMask ExtMask EncExtras LongTensor MaskTensor PixelValues) :
  init text vision cfg tag dim scale pd w = (Ok a, w') ->
  vision_model_type a = tag /\
  vision_output_dim a = dim /\
  (tag <> "transformer" -> dim <> None) /\
  vision_embed_dim (projection a) = dim /\
  text_embed_dim (projection a) = tm_hidden_size text /\
  projection_dim (projection a) = pd /\
  config (adaptor_module a) =
    match cfg with Some c => c | None => BertConfig_new 2 end /\
  logit_scale a = fmul fone scale /\
  log w' = log w ++ [EvNewLinear dim pd; EvNewLinear (Some (tm_hidden_size text)) pd;
                     EvNewEncoder; EvNewPooler].
Proof.
  unfold Adaptor_init. intros H.
  apply bind_ok in H as (p & w1 & Hp & H).
  apply bind_ok in H as (m & w2 & Hm & H). cbv zeta in H.
  apply bind_ok in H as (u & w3 & Hassert & H).
  apply ret_ok in H as [-> ->]. simpl.
  apply Project_init_ok in Hp as (Ht & Hv & Hd & Hlog1).
  apply AdaptorModule_init_ok in Hm as (Hc & Hlog2).
  assert (Hw : w3 = w2 /\ (tag <> "transformer" -> dim <> None)).
  { destruct (String.eqb_spec tag "transformer") as [E|E]; simpl in Hassert.
    - apply ret_ok in Hassert as [_ ->]. split; [reflexivity|]. intros N. now destruct N.
    - destruct dim; simpl in Hassert.
      + apply ret_ok in Hassert as [_ ->]. split; [reflexivity|discriminate].
      + discriminate. }
  destruct Hw as [-> Hdim].
  repeat split; try assumption.
  rewrite Hlog2, Hlog1, <- app_assoc. reflexivity.
Qed.

(** Adaptor.__init__ does not look at what the tag is once a
    vision_output_dim is given: with any two tags it runs the same
    constructors, fails alike or returns Adaptors that differ in the
    stored tag only.  A tag that forward does not support is
    accepted. *)
Theorem init_does_not_validate_the_tag
    (text : TextModel W LongTensor MaskTensor)
    (vision : callable W (vision_args PixelValues) (pyobj (F:=F)))
    (cfg : option BertConfig) (tag tag' : string) (d : nat) (scale : F) (pd : nat)
    (w : world W) :
  init text vision cfg tag (Some d) scale pd w =
  (map_outcome (fun a => with_vision_model_type a tag)
     (fst (init text vision cfg tag' (Some d) scale pd w)),
   snd (init text vision cfg tag' (Some d) scale pd w)).
Proof.
  unfold Adaptor_init, bind.
  destruct (Project_init nn_Linear (tm_hidden_size text) (Some d) pd w) as [[p|e] w1];
    [|reflexivity].
  destruct (AdaptorModule_init BertEncoder BertPooler cfg 2 w1) as [[m|e] w2];
    [|reflexivity].
  destruct (negb (String.eqb tag "transformer")), (negb (String.eqb tag' "transformer"));
    reflexivity.
Qed.

End MoreInitFacts.

(** ** Runs of the further properties *)

Lemma forward_runs_four_modules_in_order_run :
  exists r w',
    Doubles.forward MoreDoubles.demo_adaptor MoreDoubles.demo_args Doubles.w0 = (Ok r, w') /\
    log w' = [EvVisionModel; EvTextModel; EvEncoder; EvPooler].
Proof.
  destruct (Doubles.forward MoreDoubles.demo_adaptor MoreDoubles.demo_args Doubles.w0)
    as [[r|e] w'] eqn:E.
  - exists r, w'. split; [reflexivity|].
    apply forward_runs_four_modules_in_order in E. exact E.
  - vm_compute in E. discriminate.
Defined.

Lemma logits_are_square_and_mutually_transposed_run :
  exists r w',
    Doubles.forward MoreDoubles.demo_adaptor MoreDoubles.demo_args Doubles.w0 = (Ok r, w') /\
    wf2 2 2 (logits_per_text (fields_of r)) /\
    transpose (logits_per_image (fields_of r)) = logits_per_text (fields_of r).
Proof.
  destruct (Doubles.forward MoreDoubles.demo_adaptor MoreDoubles.demo_args Doubles.w0)
    as [[r|e] w'] eqn:E.
  - exists r, w'. split; [reflexivity|].
    assert (Hd : 1 <= size2 (image_embeds (fields_of r)) /\
                 length (text_embeds (fields_of r)) = 2).
    { vm_compute in E. inversion E. split; [apply le_S, le_n|reflexivity]. }
    destruct Hd as [Hd Hlen].
    apply logits_are_square_and_mutually_transposed in E; [|right; exact Hd].
    destruct E as (_ & Wt & _ & Htr & _). rewrite Hlen in Wt. split; assumption.
  - vm_compute in E. discriminate.
Defined.

Lemma split_then_concatenate_run :
  embeddings
    (slice_to 1 (map (map Doubles.embed_token) [[1; 2; 3]; [2; 2; 2]]))
    (slice_from 1 (map (map Doubles.embed_token) [[1; 2; 3]; [2; 2; 2]]))
  = Ok (map (map Doubles.embed_token) [[1; 2; 3]; [2; 2; 2]]).
Proof.
  apply (split_then_concatenate (b:=2) (l:=3) (d:=2) (n:=1)).
  - repeat constructor.
  - apply le_n.
  - apply le_S, le_n.
Defined.

Lemma ae_latent_becomes_a_sequence_run :
  exists x,
    vision_dispatch MoreDoubles.demo_adaptor MoreDoubles.demo_args Doubles.w0 =
      (Ok (Some (TensorObj x)), {| log := [EvVisionModel]; ext := 0 |}) /\
    wf3 2 (1 * 2) 2 x.
Proof.
  destruct (@ae_latent_becomes_a_sequence nat _ _ (list (option unit)) Doubles.t4 unit
              (list (list nat)) (list (list nat)) Doubles.t4
              MoreDoubles.demo_adaptor MoreDoubles.demo_args Doubles.w0
              Doubles.px2 0 2 2 1 2) as (x & Hx & Wx & _).
  - reflexivity.
  - reflexivity.
  - repeat constructor.
  - apply le_S, le_n.
  - exists x. split; assumption.
Defined.

(** A dict without 'z' under the tag 'ae': KeyError, and the text
    encoder has not run. *)
Lemma unreadable_vision_output_ends_the_call_run :
  Doubles.forward (Doubles.adaptor MoreDoubles.vision_no_z "ae") MoreDoubles.demo_args
    Doubles.w0
  = (Raise (KeyError "z"), {| log := [EvVisionModel]; ext := 0 |}).
Proof.
  unfold Doubles.forward.
  refine (proj2 (@unreadable_vision_output_ends_the_call nat _ _ unit (list (option unit))
                   Doubles.t4 unit Doubles.ext_mask Doubles.inv_mask Doubles.head_mask
                   Doubles.ce (list (list nat)) (list (list nat)) Doubles.t4
                   (Doubles.adaptor MoreDoubles.vision_no_z "ae") MoreDoubles.demo_args
                   Doubles.w0 (DictObj None) 0 (KeyError "z")) _ _ _);
    reflexivity.
Defined.

(** The demonstration call asks for the loss and gets one; asked not
    to, it ends in the same state. *)
Lemma return_loss_only_decides_the_loss_run :
  exists r w',
    Doubles.forward MoreDoubles.demo_adaptor MoreDoubles.demo_args Doubles.w0 = (Ok r, w') /\
    (exists l, loss (fields_of r) = Some l) /\
    snd (Doubles.forward MoreDoubles.demo_adaptor
           (with_return_loss MoreDoubles.demo_args (Some false)) Doubles.w0) = w'.
Proof.
  destruct (@return_loss_only_decides_the_loss nat _ _ unit (list (option unit))
              Doubles.t4 unit Doubles.ext_mask Doubles.inv_mask Doubles.head_mask
              Doubles.ce (list (list nat)) (list (list nat)) Doubles.t4
              MoreDoubles.demo_adaptor MoreDoubles.demo_args (Some false) Doubles.w0)
    as (Hs & _ & Hl).
  fold Doubles.forward in Hs, Hl.
  destruct (Doubles.forward MoreDoubles.demo_adaptor MoreDoubles.demo_args Doubles.w0)
    as [[r|e] w'] eqn:E.
  - exists r, w'. split; [reflexivity|]. split; [|exact Hs].
    specialize (Hl r w' eq_refl).
    assert (Ht : truthy (return_loss MoreDoubles.demo_args) = true) by reflexivity.
    rewrite Ht in Hl. destruct Hl as [Hl _].
    destruct (loss (fields_of r)) as [l|] eqn:El.
    + exists l. reflexivity.
    + specialize (Hl eq_refl). discriminate Hl.
  - vm_compute in E. discriminate.
Defined.

Lemma forward_calls_the_encoder_plainly_run :
  Doubles.forward (with_encoder MoreDoubles.demo_adaptor Doubles.enc)
    MoreDoubles.demo_args Doubles.w0
  = Doubles.forward (with_encoder MoreDoubles.demo_adaptor MoreDoubles.enc_cache)
      MoreDoubles.demo_args Doubles.w0.
Proof.
  unfold Doubles.forward.
  refine (proj1 (@forward_calls_the_encoder_plainly nat _ _ unit (list (option unit))
                   Doubles.t4 unit Doubles.ext_mask Doubles.inv_mask Doubles.head_mask
                   Doubles.ce (list (list nat)) (list (list nat)) Doubles.t4
                   MoreDoubles.demo_adaptor MoreDoubles.demo_args Doubles.w0
                   Doubles.enc MoreDoubles.enc_cache Doubles.inv_mask _)).
  intros x s (Hc & _). unfold Doubles.enc, MoreDoubles.enc_cache. now rewrite Hc.
Defined.

Lemma init_postcondition_run :
  exists a w',
    Doubles.init Doubles.new_linear Doubles.new_encoder Doubles.new_pooler
      Doubles.text Doubles.vision_timm None "timm" (Some 2) Binary32.one 2 Doubles.w0
    = (Ok a, w') /\
    vision_output_dim a = Some 2 /\
    log w' = [EvNewLinear (Some 2) 2; EvNewLinear (Some 2) 2; EvNewEncoder; EvNewPooler].
Proof.
  destruct (Doubles.init Doubles.new_linear Doubles.new_encoder Doubles.new_pooler
              Doubles.text Doubles.vision_timm None "timm" (Some 2) Binary32.one 2
              Doubles.w0) as [[a|e] w'] eqn:E.
  - exists a, w'. split; [reflexivity|].
    apply init_postcondition in E. destruct E as (_ & Hd & _ & _ & _ & _ & _ & _ & Hl).
    split; assumption.
  - vm_compute in E. discriminate.
Defined.

(** ** numpy arrays and the image processors *)
Section ChunkFacts.
Context {F : Type} {SF : Scalar F}.

Lemma chunks_length (size : nat) :
  forall (count : nat) (l : list F), length (chunks count size l) = count.
Proof. induction count as [|c IH]; intros l; simpl; [reflexivity|now rewrite IH]. Qed.

Lemma chunks_concat (size : nat) :
  forall gs : list (list F),
    Forall (fun g => length g = size) gs ->
    chunks (length gs) size (concat gs) = gs.
Proof.
  induction 1 as [|g gs Hg _ IH]; simpl; [reflexivity|].
  rewrite firstn_app, skipn_app, Hg, Nat.sub_diag, firstn_all2, skipn_all2 by lia.
  simpl. now rewrite IH, app_nil_r.
Qed.

Lemma concat_length_blocks (size : nat) (gs : list (list F)) :
  Forall (fun g => length g = size) gs -> length (concat gs) = length gs * size.
Proof.
  induction 1 as [|g gs Hg _ IH]; simpl; [reflexivity|].
  now rewrite length_app, IH, Hg.
Qed.

Lemma concat_chunks (size : nat) :
  forall (count : nat) (l : list F),
    length l = count * size ->
    concat (chunks count size l) = l /\
    Forall (fun g => length g = size) (chunks count size l).
Proof.
  induction count as [|c IH]; intros l Hl; simpl in *.
  - apply length_zero_iff_nil in Hl. subst. split; [reflexivity|constructor].
  - destruct (IH (skipn size l)) as [Hc Hall]; [rewrite length_skipn; lia|].
    split.
    + rewrite Hc. apply firstn_skipn.
    + constructor; [rewrite length_firstn; lia|exact Hall].
Qed.

Lemma repeat_blocks (x : F) (m : nat) :
  forall n, repeat x (n * m) = concat (repeat (repeat x m) n).
Proof.
  induction n as [|n IH]; simpl; [reflexivity|].
  now rewrite repeat_app, IH.
Qed.

Lemma broadcastable_refl (s : list nat) : broadcastable s s = true.
Proof. induction s as [|n s IH]; simpl; [reflexivity|]. now rewrite Nat.eqb_refl, IH. Qed.

Lemma expand_same :
  forall (s : list nat) (d : list F), length d = numel s -> expand s s d = d.
Proof.
  induction s as [|n s IH]; intros d Hd; simpl; [reflexivity|].
  rewrite Nat.eqb_refl. simpl in Hd.
  destruct (concat_chunks (numel s) n d Hd) as [Hc Hall].
  rewrite <- Hc at 2. f_equal.
  rewrite <- (map_id (chunks n (numel s) d)) at 2.
  apply map_ext_in. intros g Hg. rewrite Forall_forall in Hall. now apply IH, Hall.
Qed.

(** assigning an array of exactly the shape of the region *)
Lemma broadcast_to_same (s : list nat) (value : ndarray (F:=F)) :
  shape value = s -> well_formed value -> broadcast_to s value = Ok (data value).
Proof.
  intros Hs Hw. unfold broadcast_to. rewrite Hs, Nat.sub_diag.
  replace (strip_ones 0 s) with s by (destruct s; reflexivity).
  rewrite Nat.sub_diag. simpl. rewrite broadcastable_refl.
  f_equal. apply expand_same. unfold well_formed in Hw. now rewrite <- Hs.
Qed.

Lemma combine_map_l {A B : Type} (f : A -> B) (l : list A) :
  combine (map f l) l = map (fun a => (f a, a)) l.
Proof. induction l as [|a l IH]; simpl; [reflexivity|now rewrite IH]. Qed.

(** [a[:, k, ...] = value] block by block: [a] holds one block per
    image made by [f] from the image of [value]. *)
Lemma assign_channel_blocks (k n c : nat) (rest : list nat)
    (gs : list (list F)) (f : list F -> list F) :
  k < c -> length gs = n ->
  Forall (fun g => length g = numel rest) gs ->
  Forall (fun g => length (f g) = c * numel rest) gs ->
  assign_channel k {| shape := n :: c :: rest; data := concat (map f gs) |}
                   {| shape := n :: rest; data := concat gs |} =
  Ok {| shape := n :: c :: rest;
        data := concat (map (fun g => firstn (k * numel rest) (f g) ++ g ++
                                      skipn ((k + 1) * numel rest) (f g)) gs) |}.
Proof.
  intros Hk Hn Hgs Hf. unfold assign_channel. cbn [shape data].
  apply Nat.ltb_lt in Hk. rewrite Hk.
  rewrite (@broadcast_to_same (n :: rest) {| shape := n :: rest; data := concat gs |});
    [|reflexivity|].
  2:{ unfold well_formed. simpl. now rewrite (concat_length_blocks Hgs), Hn. }
  simpl. f_equal. f_equal. f_equal.
  rewrite <- Hn at 2. rewrite (chunks_concat Hgs).
  assert (Hfs : Forall (fun b => length b = c * numel rest) (map f gs)).
  { apply Forall_map. exact Hf. }
  replace n with (length (map f gs)) by (now rewrite length_map).
  rewrite (chunks_concat Hfs), combine_map_l, map_map. reflexivity.
Qed.

Lemma map_outcomes_ok {A B : Type} (f : A -> outcome B) (Q : B -> Prop) :
  forall l : list A,
    (forall x, In x l -> exists y, f x = Ok y /\ Q y) ->
    exists ys, map_outcomes f l = Ok ys /\ length ys = length l /\ Forall Q ys.
Proof.
  induction l as [|x l IH]; intros H; simpl.
  - exists []. repeat split. constructor.
  - destruct (H x (or_introl eq_refl)) as (y & Hy & Qy).
    destruct IH as (ys & Hys & Hl & Hall); [intros x' Hx'; apply H; now right|].
    exists (y :: ys). rewrite Hy, Hys. simpl. repeat split; [now rewrite Hl|].
    now constructor.
Qed.

Lemma skipn_repeat (x : F) : forall k n, skipn k (repeat x n) = repeat x (n - k).
Proof.
  induction k as [|k IH]; intros n; simpl.
  - now rewrite Nat.sub_0_r.
  - destruct n; simpl; [reflexivity|apply IH].
Qed.

Lemma map_const {A : Type} (x : list F) (l : list A) :
  map (fun _ => x) l = repeat x (length l).
Proof. induction l as [|a l IH]; simpl; [reflexivity|now rewrite IH]. Qed.

(** The three assignments of lines 46-48 into [np.zeros((n, 3) + rest)]:
    every image ends as three copies of its gray image. *)
Lemma three_channels (n : nat) (rest : list nat) (gs : list (list F)) :
  length gs = n ->
  Forall (fun g => length g = numel rest) gs ->
  (let* a0 := assign_channel 0 (zeros (n :: 3 :: rest))
                {| shape := n :: rest; data := concat gs |} in
   let* a1 := assign_channel 1 a0 {| shape := n :: rest; data := concat gs |} in
   assign_channel 2 a1 {| shape := n :: rest; data := concat gs |}) =
  Ok {| shape := n :: 3 :: rest; data := concat (map (fun g => g ++ g ++ g) gs) |}.
Proof.
  intros Hn Hgs. set (R := numel rest) in *.
  assert (Hz : zeros (n :: 3 :: rest) =
               {| shape := n :: 3 :: rest;
                  data := concat (map (fun _ : list F => repeat fzero (3 * R)) gs) |}).
  { unfold zeros. f_equal. rewrite map_const, Hn. apply repeat_blocks. }
  rewrite Hz. clear Hz.
  rewrite (@assign_channel_blocks 0 n 3 rest gs (fun _ => repeat fzero (3 * R)));
    [|lia|exact Hn|exact Hgs|].
  2:{ apply Forall_forall. intros g _. apply repeat_length. }
  cbn [obind]. fold R.
  assert (E1 : map (fun g => firstn (0 * R) (repeat fzero (3 * R)) ++ g ++
                             skipn ((0 + 1) * R) (repeat fzero (3 * R))) gs =
               map (fun g => g ++ repeat fzero (2 * R)) gs).
  { apply map_ext. intros g. rewrite skipn_repeat. simpl firstn.
    simpl app. do 2 f_equal. lia. }
  rewrite E1. clear E1.
  rewrite (@assign_channel_blocks 1 n 3 rest gs (fun g => g ++ repeat fzero (2 * R)));
    [|lia|exact Hn|exact Hgs|].
  2:{ eapply Forall_impl; [|exact Hgs]. intros g Hg. cbv beta.
      rewrite length_app, repeat_length, Hg. fold R. lia. }
  cbn [obind]. fold R.
  assert (E2 : map (fun g => firstn (1 * R) (g ++ repeat fzero (2 * R)) ++ g ++
                             skipn ((1 + 1) * R) (g ++ repeat fzero (2 * R))) gs =
               map (fun g => g ++ g ++ repeat fzero R) gs).
  { apply map_ext_in. intros g Hg. rewrite Forall_forall in Hgs.
    specialize (Hgs g Hg). fold R in Hgs.
    rewrite firstn_app, skipn_app, Hgs.
    replace (1 * R - R) with 0 by lia. replace ((1 + 1) * R - R) with R by lia.
    rewrite firstn_all2 by lia. rewrite skipn_all2 by lia.
    rewrite skipn_repeat. simpl firstn. rewrite app_nil_r. simpl app.
    do 3 f_equal. lia. }
  rewrite E2. clear E2.
  rewrite (@assign_channel_blocks 2 n 3 rest gs (fun g => g ++ g ++ repeat fzero R));
    [|lia|exact Hn|exact Hgs|].
  2:{ eapply Forall_impl; [|exact Hgs]. intros g Hg. cbv beta.
      rewrite !length_app, repeat_length, Hg. fold R. lia. }
  fold R. do 3 f_equal.
  apply map_ext_in. intros g Hg. rewrite Forall_forall in Hgs.
  specialize (Hgs g Hg). fold R in Hgs.
  rewrite (app_assoc g g) at 1 2.
  rewrite firstn_app, skipn_app, length_app, Hgs.
  replace (2 * R - (R + R)) with 0 by lia. replace ((2 + 1) * R - (R + R)) with R by lia.
  rewrite firstn_all2 by (rewrite length_app; lia).
  rewrite skipn_all2 by (rewrite length_app; lia).
  rewrite skipn_repeat, Nat.sub_diag. simpl. now rewrite !app_nil_r, <- app_assoc.
Qed.

End ChunkFacts.

Section MoreImageFacts.
Variable W : Type.
Context {F : Type} {SF : Scalar F}.
Variable normalize : ndarray (F:=F) -> nat -> outcome (ndarray (F:=F)).
Variable XRayCenterCrop : ndarray (F:=F) -> outcome (ndarray (F:=F)).
Variable XRayResizer : nat -> ndarray (F:=F) -> outcome (ndarray (F:=F)).
Variable float32_of : F -> F.

Local Abbreviation ae := (ae_image_processor (W:=W) normalize XRayCenterCrop XRayResizer).
Local Abbreviation timm :=
  (timm_image_processor (W:=W) normalize XRayCenterCrop XRayResizer float32_of).
Local Abbreviation transform1 := (transform XRayCenterCrop XRayResizer).

(** the world after the complaint was printed *)
Local Abbreviation complained w :=
  {| log := log w ++ [EvPrint "error, dimension lower than 2 for image"];
     ext := ext w |}.

Lemma check_2d_low (a : ndarray (F:=F)) (w : world W) :
  ndim a < 3 -> check_2d a w = (Ok a, complained w).
Proof.
  intros H. unfold check_2d, bind, lift, print, ret.
  destruct (Nat.ltb_spec 3 (ndim a)) as [H3|H3]; [lia|].
  destruct (Nat.ltb_spec (ndim a) 3) as [H4|H4]; [reflexivity|lia].
Qed.

Lemma check_2d_rank3 (a : ndarray (F:=F)) (w : world W) (n h wd : nat) :
  shape a = [n; h; wd] -> check_2d a w = (Ok a, w).
Proof.
  intros H. assert (Hr : ndim a = 3) by (unfold ndim; now rewrite H).
  unfold check_2d, bind, lift, print, ret.
  destruct (Nat.ltb_spec 3 (ndim a)) as [H3|H3]; [lia|].
  destruct (Nat.ltb_spec (ndim a) 3) as [H4|H4]; [lia|reflexivity].
Qed.

Lemma check_2d_rank4 (a : ndarray (F:=F)) (w : world W) (n h wd c : nat) :
  shape a = [n; h; wd; c] -> 1 <= c ->
  exists a', check_2d a w = (Ok a', w) /\ shape a' = [n; h; wd] /\
             index_axis3_0 a = Ok a'.
Proof.
  intros H C1. assert (Hr : ndim a = 4) by (unfold ndim; now rewrite H).
  assert (Hi : exists a', index_axis3_0 a = Ok a' /\ shape a' = [n; h; wd]).
  { unfold index_axis3_0. rewrite H.
    destruct (Nat.eqb_spec c 0) as [E|E]; [lia|]. eexists. split; reflexivity. }
  destruct Hi as (a' & Hi & Hs). exists a'.
  assert (Hr' : ndim a' = 3) by (unfold ndim; now rewrite Hs).
  unfold check_2d, bind, lift, print, ret.
  destruct (Nat.ltb_spec 3 (ndim a)) as [H3|H3]; [|lia]. rewrite Hi.
  destruct (Nat.ltb_spec (ndim a') 3) as [H4|H4]; [lia|]. auto.
Qed.

(** Both processors, given images of rank below 3 (a single 2-D
    image, say): they print "error, dimension lower than 2 for
    image", go on, and fail in the indexing of the next statement
    with numpy's IndexError; no image is transformed. *)
Theorem processors_complain_then_fail_below_rank_3 (imgs a : ndarray (F:=F))
    (return_dict : bool) (w : world W) :
  normalize imgs 255 = Ok a -> ndim a < 3 ->
  ae imgs return_dict w =
    (Raise (IndexError "too many indices for array"), complained w) /\
  timm imgs return_dict w =
    (Raise (IndexError "too many indices for array"), complained w).
Proof.
  intros Hn Hr.
  assert (Hadd : add_axis1 a = Raise (IndexError "too many indices for array")).
  { unfold add_axis1. unfold ndim in Hr.
    destruct (shape a) as [|n [|h [|wd rest]]]; try reflexivity. simpl in Hr. lia. }
  split.
  - unfold ae_image_processor, bind at 1, lift at 1. rewrite Hn.
    unfold bind at 1. rewrite (@check_2d_low a w Hr).
    unfold bind, lift. now rewrite Hadd.
  - unfold timm_image_processor, bind at 1, lift at 1. rewrite Hn.
    unfold bind at 1. rewrite (@check_2d_low a w Hr).
    unfold bind, lift. now rewrite Hadd.
Qed.

(** The images of a batch of shape [n, h, w] after the channel axis
    was added: [n] arrays of shape [1, h, w]. *)
Lemma iterate_images (a : ndarray (F:=F)) (n h wd : nat) :
  shape a = [n; h; wd] ->
  exists a1 items,
    add_axis1 a = Ok a1 /\ iterate a1 = Ok items /\ length items = n /\
    Forall (fun img => shape img = [1; h; wd]) items.
Proof.
  intros H. unfold add_axis1, iterate. rewrite H.
  eexists. eexists. split; [reflexivity|]. cbn [shape data].
  split; [reflexivity|]. split.
  - now rewrite length_map, chunks_length.
  - apply Forall_map, Forall_forall. intros d _. reflexivity.
Qed.

Lemma np_array_same_shape (s : list nat) (outs : list (ndarray (F:=F))) :
  1 <= length outs -> Forall (fun o => shape o = s) outs ->
  np_array outs = Ok {| shape := length outs :: s; data := concat (map data outs) |}.
Proof.
  intros Hl Hall. unfold np_array. destruct outs as [|x rest]; [simpl in Hl; lia|].
  inversion Hall as [|? ? Hx Hrest]; subst.
  assert (Hf : forallb (fun y => shape_eqb (shape y) (shape x)) rest = true).
  { apply forallb_forall. intros y Hy. rewrite Forall_forall in Hrest.
    rewrite (Hrest y Hy). unfold shape_eqb.
    destruct (list_eq_dec Nat.eq_dec (shape x) (shape x)); [reflexivity|contradiction]. }
  now rewrite Hf.
Qed.

(** The images of a batch, transformed one by one. *)
Lemma transformed_images (Q : ndarray (F:=F) -> Prop) (a : ndarray (F:=F))
    (n h wd : nat) :
  shape a = [n; h; wd] ->
  (forall img, shape img = [1; h; wd] -> exists out, transform1 img = Ok out /\ Q out) ->
  exists a1 items outs,
    add_axis1 a = Ok a1 /\ iterate a1 = Ok items /\
    map_outcomes transform1 items = Ok outs /\
    length outs = n /\ Forall Q outs.
Proof.
  intros Hs Hc.
  destruct (@iterate_images a n h wd Hs) as (a1 & items & Hadd & Hit & Hlen & Hall).
  destruct (@map_outcomes_ok _ _ transform1 Q items) as (outs & Hm & Hl & HQ).
  { intros x Hx. rewrite Forall_forall in Hall. apply Hc, Hall, Hx. }
  exists a1, items, outs. repeat split; try assumption. now rewrite Hl.
Qed.

Lemma check_2d_images (a : ndarray (F:=F)) (w : world W) (n h wd : nat) :
  shape a = [n; h; wd] \/ (exists c, 1 <= c /\ shape a = [n; h; wd; c]) ->
  exists a', check_2d a w = (Ok a', w) /\ shape a' = [n; h; wd].
Proof.
  intros [H|(c & C1 & H)].
  - exists a. split; [exact (@check_2d_rank3 a w n h wd H)|exact H].
  - destruct (@check_2d_rank4 a w n h wd c H C1) as (a' & Hc & Hs & _). exists a'. auto.
Qed.

(** ae_image_processor on a batch of n >= 1 gray images, of shape
    [n, h, w] or with a trailing axis of channels of which the first
    is kept: when the transform turns an image of shape [1, h, w]
    into one of shape [1, 224, 224], the call prints nothing and
    returns pixel values of shape [n, 1, 224, 224], the transformed
    images in order; under the key "pixel_values" when return_dict
    is set, bare otherwise. *)
Theorem ae_image_processor_shape (imgs a : ndarray (F:=F)) (return_dict : bool)
    (w : world W) (n h wd : nat) :
  normalize imgs 255 = Ok a ->
  shape a = [n; h; wd] \/ (exists c, 1 <= c /\ shape a = [n; h; wd; c]) ->
  1 <= n ->
  (forall img, shape img = [1; h; wd] ->
     exists out, transform1 img = Ok out /\ shape out = [1; 224; 224]) ->
  exists a' a1 items outs,
    check_2d a w = (Ok a', w) /\ add_axis1 a' = Ok a1 /\ iterate a1 = Ok items /\
    map_outcomes transform1 items = Ok outs /\ length outs = n /\
    ae imgs return_dict w =
      (Ok ((if return_dict then PixelDict else PixelTensor)
             {| shape := [n; 1; 224; 224]; data := concat (map data outs) |}), w).
Proof.
  intros Hn Hs N1 Hc.
  destruct (@check_2d_images a w n h wd Hs) as (a' & Hchk & Hs').
  destruct (@transformed_images _ a' n h wd Hs' Hc)
    as (a1 & items & outs & Hadd & Hit & Hm & Hl & HQ).
  exists a', a1, items, outs. repeat split; try assumption.
  assert (Hnp : np_array outs =
                Ok {| shape := [n; 1; 224; 224]; data := concat (map data outs) |}).
  { rewrite (@np_array_same_shape [1; 224; 224] outs) by (try rewrite Hl; assumption).
    now rewrite Hl. }
  unfold ae_image_processor, bind at 1, lift at 1. rewrite Hn.
  unfold bind at 1. rewrite Hchk.
  unfold bind, lift, from_numpy.
  rewrite Hadd. cbv beta iota. rewrite Hit. cbv beta iota.
  rewrite Hm. cbv beta iota. rewrite Hnp. cbv beta iota.
  now destruct return_dict.
Qed.

(** timm_image_processor on such a batch, when the transform returns
    well-formed images of shape [1, 224, 224]: the pixel values have
    shape [n, 3, 224, 224] and every image is its transformed gray
    image three times over, once per channel.  The dict holds them
    as they are; the bare tensor holds them rounded by float(). *)
Theorem timm_image_processor_replicates_gray (imgs a : ndarray (F:=F))
    (return_dict : bool) (w : world W) (n h wd : nat) :
  normalize imgs 255 = Ok a ->
  shape a = [n; h; wd] \/ (exists c, 1 <= c /\ shape a = [n; h; wd; c]) ->
  1 <= n ->
  (forall img, shape img = [1; h; wd] ->
     exists out, transform1 img = Ok out /\
                 (shape out = [1; 224; 224] /\ well_formed out)) ->
  exists a' a1 items outs,
    check_2d a w = (Ok a', w) /\ add_axis1 a' = Ok a1 /\ iterate a1 = Ok items /\
    map_outcomes transform1 items = Ok outs /\ length outs = n /\
    timm imgs return_dict w =
      (Ok (if return_dict
           then PixelDict
                  {| shape := [n; 3; 224; 224];
                     data := concat (map (fun o => data o ++ data o ++ data o) outs) |}
           else PixelTensor
                  (tensor_float float32_of
                     {| shape := [n; 3; 224; 224];
                        data := concat (map (fun o => data o ++ data o ++ data o) outs) |})),
       w).
Proof.
  intros Hn Hs N1 Hc.
  destruct (@check_2d_images a w n h wd Hs) as (a' & Hchk & Hs').
  destruct (@transformed_images _ a' n h wd Hs' Hc)
    as (a1 & items & outs & Hadd & Hit & Hm & Hl & HQ).
  exists a', a1, items, outs. repeat split; try assumption.
  assert (Hshapes : Forall (fun o => shape o = [1; 224; 224]) outs).
  { eapply Forall_impl; [|exact HQ]. now intros o [Ho _]. }
  assert (Hnp : np_array outs =
                Ok {| shape := [n; 1; 224; 224]; data := concat (map data outs) |}).
  { rewrite (@np_array_same_shape [1; 224; 224] outs) by (try rewrite Hl; assumption).
    now rewrite Hl. }
  assert (Hn0 : shape0 a' = Ok n) by (unfold shape0; now rewrite Hs').
  unfold timm_image_processor, bind at 1, lift at 1. rewrite Hn.
  unfold bind at 1. rewrite Hchk.
  unfold bind, lift, from_numpy.
  rewrite Hadd. cbv beta iota. rewrite Hit. cbv beta iota.
  rewrite Hm. cbv beta iota. rewrite Hnp. cbv beta iota.
  unfold squeeze1. cbn [shape data]. rewrite Nat.eqb_refl. cbv beta iota.
  rewrite Hn0. cbv beta iota zeta.
  set (rest := [224; 224]) in *.
  assert (Hgs : Forall (fun g => length g = numel rest) (map data outs)).
  { apply Forall_map. eapply Forall_impl; [|exact HQ].
    intros o [Ho Hw]. unfold well_formed in Hw. rewrite Ho in Hw.
    change (numel (1 :: rest)) with (1 * numel rest) in Hw.
    now rewrite Nat.mul_1_l in Hw. }
  pose proof (@three_channels _ _ n rest (map data outs)) as H3.
  rewrite length_map in H3. specialize (H3 Hl Hgs). rewrite map_map in H3.
  unfold obind in H3.
  destruct (assign_channel 0 (zeros (n :: 3 :: rest))
              {| shape := n :: rest; data := concat (map data outs) |}) as [a0|e];
    [|discriminate].
  cbv beta iota.
  destruct (assign_channel 1 a0 {| shape := n :: rest; data := concat (map data outs) |})
    as [a2|e]; [|discriminate].
  cbv beta iota. rewrite H3. cbv beta iota.
  now destruct return_dict.
Qed.

End MoreImageFacts.

(** ** Runs of the image processors *)

Lemma resizer_contract (h wd : nat) (img : ImageDoubles.arr) :
  shape img = [1; h; wd] ->
  exists out,
    transform ImageDoubles.crop ImageDoubles.resizer img = Ok out /\
    (shape out = [1; 224; 224] /\ well_formed out).
Proof.
  intros _. eexists. split; [reflexivity|]. split; [reflexivity|].
  unfold well_formed. cbn [shape data numel fold_right].
  rewrite repeat_length. lia.
Qed.

Lemma processors_complain_then_fail_below_rank_3_run :
  ImageDoubles.ae ImageDoubles.single true Doubles.w0 =
    (Raise (IndexError "too many indices for array"),
     {| log := [EvPrint "error, dimension lower than 2 for image"]; ext := 0 |}) /\
  ImageDoubles.timm ImageDoubles.single true Doubles.w0 =
    (Raise (IndexError "too many indices for array"),
     {| log := [EvPrint "error, dimension lower than 2 for image"]; ext := 0 |}).
Proof.
  apply (processors_complain_then_fail_below_rank_3 (W:=nat) ImageDoubles.normalize
           ImageDoubles.crop ImageDoubles.resizer ImageDoubles.to_float32
           ImageDoubles.single (a:=ImageDoubles.single_normalized) true Doubles.w0).
  - vm_compute. reflexivity.
  - apply le_n.
Defined.

Lemma ae_image_processor_shape_run :
  exists outs,
    length outs = 2 /\
    ImageDoubles.ae ImageDoubles.pair true Doubles.w0 =
      (Ok (PixelDict {| shape := [2; 1; 224; 224]; data := concat (map data outs) |}),
       Doubles.w0).
Proof.
  destruct (ae_image_processor_shape (W:=nat) ImageDoubles.normalize
              ImageDoubles.crop ImageDoubles.resizer
              ImageDoubles.pair (a:=ImageDoubles.pair_normalized) true Doubles.w0
              (n:=2) (h:=1) (wd:=2))
    as (a' & a1 & items & outs & _ & _ & _ & _ & Hl & Hrun).
  - vm_compute. reflexivity.
  - left. reflexivity.
  - apply le_S, le_n.
  - intros img Hs. destruct (@resizer_contract 1 2 img Hs) as (out & Ho & Hsh & _).
    exists out. split; assumption.
  - exists outs. split; assumption.
Defined.

Lemma timm_image_processor_replicates_gray_run :
  exists outs,
    length outs = 2 /\
    ImageDoubles.timm ImageDoubles.pair true Doubles.w0 =
      (Ok (PixelDict
             {| shape := [2; 3; 224; 224];
                data := concat (map (fun o => data o ++ data o ++ data o) outs) |}),
       Doubles.w0).
Proof.
  destruct (timm_image_processor_replicates_gray (W:=nat) ImageDoubles.normalize
              ImageDoubles.crop ImageDoubles.resizer ImageDoubles.to_float32
              ImageDoubles.pair (a:=ImageDoubles.pair_normalized) true Doubles.w0
              (n:=2) (h:=1) (wd:=2))
    as (a' & a1 & items & outs & _ & _ & _ & _ & Hl & Hrun).
  - vm_compute. reflexivity.
  - left. reflexivity.
  - apply le_S, le_n.
  - intros img Hs. exact (@resizer_contract 1 2 img Hs).
  - exists outs. split; assumption.
Defined.
